(** * Type Motion: the video-to-GIF conversion and the operation poller

    A shallow embedding of [createGifFromVideo] (src/utils.ts) and of
    [pollForVideo] (the Gemini service module), with the properties the
    specification states about them.

    JavaScript numbers are IEEE-754 binary64 values.  They are modelled by
    the Standard Library's [spec_float] with [prec = 53] and [emax = 1024];
    products and quotients are the library's correctly rounded [SFmul] and
    [SFdiv].  The results of [Math.floor] and the loop counter are
    integer-valued doubles: they are carried by their exact integer value,
    with the rounding of [x + 1] and [x - 1] written out ([roundZ]). *)

From Stdlib Require Import ZArith NArith Zquot List String Bool Lia.
From Stdlib Require Import Strings.Byte.
From Stdlib Require Import Floats.SpecFloat.
Import ListNotations.
Open Scope Z_scope.

(** ** ECMAScript numbers *)

Module Num.

Definition prec : Z := 53.
Definition emax : Z := 1024.

Definition number := spec_float.

(** The double nearest to an integer (a numeric literal such as [400]). *)
Definition ofZ (z : Z) : number := binary_normalize prec emax z 0 false.

Definition mul : number -> number -> number := SFmul prec emax.
Definition div : number -> number -> number := SFdiv prec emax.

(** [ToBoolean]: [+0], [-0] and [NaN] are falsy, every other number is truthy. *)
Definition truthy (x : number) : bool :=
  match x with
  | S754_zero _ | S754_nan => false
  | _ => true
  end.

(** [x || y] on numbers. *)
Definition or (x y : number) : number := if truthy x then x else y.

(** An integer-valued double, [NaN] or an infinity.  [-0] is carried as [0]:
    no operation below tells them apart. *)
Inductive integral :=
| INaN
| IInf (negative : bool)
| IInt (z : Z).

(** [Math.floor]: exact, the largest integer not above [x].  A finite double
    is [(-1)^s * m * 2^e]; [Z.shiftl] by a negative [e] is the flooring
    division by [2^(-e)]. *)
Definition Math_floor (x : number) : integral :=
  match x with
  | S754_nan => INaN
  | S754_infinity s => IInf s
  | S754_zero _ => IInt 0
  | S754_finite s m e => IInt (Z.shiftl (if s then Z.neg m else Z.pos m) e)
  end.

Definition toNumber (x : integral) : number :=
  match x with
  | INaN => S754_nan
  | IInf s => S754_infinity s
  | IInt z => ofZ z
  end.

(** The integer-valued double nearest to the integer [z], ties to even.
    Integers of at most 53 bits are doubles; a longer one loses its [k] low
    bits. *)
Definition roundZ (z : Z) : Z :=
  let a := Z.abs z in
  let k := Z.log2 a + 1 - prec in
  if k <=? 0 then z
  else
    let q := Z.shiftr a k in
    let r := Z.land a (Z.ones k) in
    let q' := match r ?= Z.shiftl 1 (k - 1) with
              | Lt => q
              | Gt => q + 1
              | Eq => if Z.even q then q else q + 1
              end in
    Z.sgn z * Z.shiftl q' k.

(** [x + 1] and [x - 1] on an integer-valued double. *)
Definition plus1 (x : integral) : integral :=
  match x with
  | IInt z => IInt (roundZ (z + 1))
  | _ => x
  end.

Definition minus1 (x : integral) : integral :=
  match x with
  | IInt z => IInt (roundZ (z - 1))
  | _ => x
  end.

(** [x % k] for a literal [k]: the remainder has the sign of the dividend;
    [NaN] and the infinities give [NaN]. *)
Definition rem (x : integral) (k : Z) : integral :=
  match x with
  | IInt z => if k =? 0 then INaN else IInt (Z.rem z k)
  | _ => INaN
  end.

(** [x !== k] for a literal [k]: [NaN] differs from every number. *)
Definition strictNe (x : integral) (k : Z) : bool :=
  match x with
  | IInt z => negb (z =? k)
  | _ => true
  end.

(** [x < y]: false as soon as one side is [NaN]. *)
Definition lt (x y : integral) : bool :=
  match x, y with
  | INaN, _ | _, INaN => false
  | IInf sx, IInf sy => sx && negb sy
  | IInf sx, IInt _ => sx
  | IInt _, IInf sy => negb sy
  | IInt a, IInt b => a <? b
  end.

End Num.

(** ** The browser objects [createGifFromVideo] works on *)

(** What a [throw], a rejected promise or [console.error] carries. *)
Inductive Exception :=
| Error (message : string)
| TypeError
| DOMException (name : string).

(** [ImageData.data]: RGBA bytes, row by row. *)
Definition Uint8ClampedArray := list byte.
(** gifenc's palette (a list of RGB triples) and index buffer. *)
Definition Palette := list (byte * byte * byte).
Definition Uint8Array := list byte.

(** One [gif.writeFrame(index, width, height, { palette, delay })] call. *)
Record Frame := {
  frameIndex : Uint8Array;
  frameWidth : Z;
  frameHeight : Num.integral;
  framePalette : Palette;
  frameDelay : Num.number
}.

(** [new Blob([gif.bytes()], { type })]: the frames the encoder had been
    given when [finish] was called, and the MIME type. *)
Record Blob := {
  blobFrames : list Frame;
  blobType : string
}.

(** The state of the promise [createGifFromVideo] returns.  [Pending]: neither
    [resolve] nor [reject] has been called. *)
Inductive Promise :=
| Pending
| Fulfilled (value : Blob)
| Rejected (reason : Exception).

(** Which of the two handlers the browser calls after [video.load()]. *)
Inductive LoadSignal :=
| Loadedmetadata
| LoadError
| NoSignal.

(** The state of an element's [crossOrigin] attribute: absent, or
    ["anonymous"]. *)
Inductive CORSSetting :=
| NoCORS
| Anonymous.

(** The video behind [videoUrl], as the browser presents it. *)
Module Video.
Record t := {
  (** what fetching and decoding the resource ends in, once the browser is
      allowed to fetch it *)
  signal : LoadSignal;
  duration : Num.number;
  videoWidth : N;
  videoHeight : N;
  (** the URL has the page's origin (a [blob:] URL the page made, a file of
      its own site) *)
  sameOrigin : bool;
  (** the server answers the page's CORS request with its approval *)
  allowsCors : bool;
  (** the RGBA data of the clip's frame at a timestamp, as drawn on the
      conversion's canvas *)
  pixels : Num.number -> Uint8ClampedArray;
  (** after how many milliseconds the [seeked] event of the k-th seek fires,
      if it ever does *)
  seeked : nat -> option N
}.
End Video.

(** The precondition on the source: the page may read the clip's pixels,
    because it is same-origin or its server approves. *)
Definition crossOriginReadable (video : Video.t) : bool :=
  Video.sameOrigin video || Video.allowsCors video.

(** [video.load()] on an element with the given [crossOrigin] state (HTML
    Standard, media resource fetch: the request is a potential-CORS request
    made from the attribute's state).  With the attribute set the browser
    fetches in CORS mode: a cross-origin response without the server's
    approval fails the CORS check and is a network error, reported by the
    [error] event like any other failure to load.  Without the attribute
    every reachable resource loads. *)
Definition load (setting : CORSSetting) (video : Video.t) : LoadSignal :=
  match setting with
  | NoCORS => Video.signal video
  | Anonymous =>
      if crossOriginReadable video then Video.signal video else LoadError
  end.

(** Whether the loaded video is origin-clean, so that drawing it leaves the
    canvas readable: data fetched in CORS mode always is, data fetched
    without it only when it is same-origin. *)
Definition originClean (setting : CORSSetting) (video : Video.t) : bool :=
  match setting with
  | NoCORS => Video.sameOrigin video
  | Anonymous => true
  end.

(** The page the conversion runs in. *)
Record Host := {
  (** [typeof GIFEncoder === 'function'] *)
  gifencLoaded : bool;
  (** [canvas.getContext('2d', ...)] is not [null] *)
  context2d : bool
}.

Definition seekTimeout : N := 1000.

(** The wait of lines 84-97 ends through [seekHandler] (true) or through the
    timer (false). *)
Definition seekCompletes (video : Video.t) (k : nat) : bool :=
  match Video.seeked video k with
  | Some ms => (ms <? seekTimeout)%N
  | None => false
  end.

(** The canvas: its bitmap and its origin-clean flag. *)
Record Canvas := {
  bitmap : Uint8ClampedArray;
  tainted : bool
}.

(** A new canvas is transparent black. *)
Definition blank (width : Z) (height : Num.integral) : Uint8ClampedArray :=
  match height with
  | Num.IInt h => repeat x00 (Z.to_nat (4 * width * h))
  | _ => []
  end.

(** [ctx.drawImage(video, 0, 0, width, height)]: returns without drawing when
    an argument is not finite; otherwise paints the frame the video shows and,
    for a video that is not origin-clean, taints the canvas. *)
Definition drawImage (current : Uint8ClampedArray) (originClean : bool)
    (height : Num.integral) (canvas : Canvas) : Canvas :=
  match height with
  | Num.IInt _ =>
      {| bitmap := current; tainted := tainted canvas || negb originClean |}
  | _ => canvas
  end.

(** [ctx.getImageData(0, 0, width, height)]: the arguments are
    [[EnforceRange] long] (a [TypeError] otherwise), a zero side is an
    [IndexSizeError], a tainted canvas a [SecurityError]. *)
Definition getImageData (height : Num.integral) (canvas : Canvas)
  : Exception + Uint8ClampedArray :=
  match height with
  | Num.IInt h =>
      if (h <? - 2 ^ 31) || (2 ^ 31 - 1 <? h) then inl TypeError
      else if h =? 0 then inl (DOMException "IndexSizeError")
      else if tainted canvas then inl (DOMException "SecurityError")
      else inr (bitmap canvas)
  | _ => inl TypeError
  end.

(** ** createGifFromVideo *)

Section CreateGif.

(** gifenc's [quantize(rgba, maxColors)] and [applyPalette(rgba, palette)]. *)
Variable quantize : Uint8ClampedArray -> Z -> Palette.
Variable applyPalette : Uint8ClampedArray -> Palette -> Uint8Array.

(** Line 51: [video.crossOrigin = "anonymous"]. *)
Definition crossOrigin : CORSSetting := Anonymous.

(** The constants and derived values of lines 57-64. *)
Definition duration (video : Video.t) : Num.number :=
  Num.or (Video.duration video) (Num.ofZ 5).

Definition width : Z := 400.

Definition height (video : Video.t) : Num.integral :=
  let height :=
    Num.Math_floor
      (Num.mul (Num.div (Num.ofZ (Z.of_N (Video.videoHeight video)))
                        (Num.ofZ (Z.of_N (Video.videoWidth video))))
               (Num.ofZ width)) in
  if Num.strictNe (Num.rem height 2) 0 then Num.minus1 height else height.

Definition fps : Z := 10.

Definition totalFrames (video : Video.t) : Num.integral :=
  Num.Math_floor (Num.mul (duration video) (Num.ofZ fps)).

Definition maxColors : Z := 256.

Definition delay : Num.number := Num.div (Num.ofZ 1000) (Num.ofZ fps).

(** Lines 103-107 for one frame's pixel data. *)
Definition writeFrame (video : Video.t) (data : Uint8ClampedArray) : Frame :=
  let palette := quantize data maxColors in
  let index := applyPalette data palette in
  {| frameIndex := index;
     frameWidth := width;
     frameHeight := height video;
     framePalette := palette;
     frameDelay := delay |}.

(** What a run has done so far: the promise, the frames given to the encoder
    and what [console.error] printed. *)
Record Run := {
  promise : Promise;
  written : list Frame;
  console : list Exception
}.

(** The variables of the frame loop: the counter [i], the number of seeks
    requested, the frame the video shows, the canvas and the encoder. *)
Record Loop := {
  i : Num.integral;
  seeks : nat;
  current : Uint8ClampedArray;
  canvas : Canvas;
  gif : list Frame
}.

(** The [for] loop of lines 76-108 and the lines after it.  One unit of fuel
    is one evaluation of [i < totalFrames]; a run out of fuel is still in the
    loop and its promise is pending.  The [setTimeout(r, 0)] of line 78 hands
    control back to the page and changes none of the loop's variables. *)
Fixpoint frameLoop (video : Video.t) (fuel : nat) (st : Loop) : Run :=
  match fuel with
  | O => {| promise := Pending; written := gif st; console := [] |}
  | S fuel' =>
      if Num.lt (i st) (totalFrames video) then
        let time := Num.div (Num.toNumber (i st)) (Num.ofZ fps) in
        (* video.currentTime = time: a seek that completes shows the frame at
           [time]; when the timer wins, the video still shows what it did *)
        let current' :=
          if seekCompletes video (seeks st)
          then Video.pixels video time
          else current st in
        let canvas' :=
          drawImage current' (originClean crossOrigin video) (height video)
            (canvas st) in
        match getImageData (height video) canvas' with
        | inl e =>
            {| promise := Rejected e; written := gif st; console := [e] |}
        | inr data =>
            frameLoop video fuel'
              {| i := Num.plus1 (i st);
                 seeks := S (seeks st);
                 current := current';
                 canvas := canvas';
                 gif := gif st ++ [writeFrame video data] |}
        end
      else
        {| promise := Fulfilled {| blobFrames := gif st; blobType := "image/gif" |};
           written := gif st;
           console := [] |}
  end.

(** The [onloadedmetadata] handler: the context check, then the loop from
    [i = 0] on a fresh canvas and encoder.  Before the first seek the video
    shows the frame at its initial playback position, 0. *)
Definition onloadedmetadata (host : Host) (video : Video.t) (fuel : nat) : Run :=
  if negb (context2d host) then
    let e := Error "Could not get canvas context" in
    {| promise := Rejected e; written := []; console := [e] |}
  else
    frameLoop video fuel
      {| i := Num.IInt 0;
         seeks := O;
         current := Video.pixels video (Num.ofZ 0);
         canvas := {| bitmap := blank width (height video); tainted := false |};
         gif := [] |}.

(** The function itself: the gifenc guard, then the element of lines 50-53
    ([crossOrigin], [src], [muted]) and the answer to its [load()]. *)
Definition createGifFromVideo (host : Host) (video : Video.t) (fuel : nat) : Run :=
  if negb (gifencLoaded host) then
    {| promise :=
         Rejected (Error "GIF library failed to load correctly. Please refresh the page.");
       written := [];
       console := [] |}
  else
    match load crossOrigin video with
    | Loadedmetadata => onloadedmetadata host video fuel
    | LoadError =>
        {| promise := Rejected (Error "Video load failed"); written := []; console := [] |}
    | NoSignal =>
        {| promise := Pending; written := []; console := [] |}
    end.

(** *** The loop, iteration by iteration

    Closed forms of the loop variables after [k] iterations; the proofs
    relate [frameLoop] to them. *)

(** The counter [i] after [k] increments. *)
Definition counter (k : nat) : Num.integral := Nat.iter k Num.plus1 (Num.IInt 0).

(** The timestamp the k-th iteration seeks to, [i / fps]. *)
Definition timeOf (k : nat) : Num.number :=
  Num.div (Num.toNumber (counter k)) (Num.ofZ fps).

(** The frame the video shows once [k] seeks have been waited for. *)
Fixpoint shown (video : Video.t) (k : nat) : Uint8ClampedArray :=
  match k with
  | O => Video.pixels video (Num.ofZ 0)
  | S k' =>
      if seekCompletes video k' then Video.pixels video (timeOf k')
      else shown video k'
  end.

(** The canvas after [k] calls of [drawImage]. *)
Fixpoint canvasAt (video : Video.t) (k : nat) : Canvas :=
  match k with
  | O => {| bitmap := blank width (height video); tainted := false |}
  | S k' =>
      drawImage (shown video k) (originClean crossOrigin video) (height video)
        (canvasAt video k')
  end.

Definition stateAt (video : Video.t) (k : nat) (frames : list Frame) : Loop :=
  {| i := counter k;
     seeks := k;
     current := shown video k;
     canvas := canvasAt video k;
     gif := frames |}.

(** [getImageData] accepts the raster: the height is a non-zero [long]. *)
Definition rasterOk (video : Video.t) : bool :=
  match height video with
  | Num.IInt h => (- 2 ^ 31 <=? h) && (h <=? 2 ^ 31 - 1) && negb (h =? 0)
  | _ => false
  end.

(** The page has gifenc and a 2D context, and the browser has called
    [onloadedmetadata]. *)
Definition started (host : Host) (video : Video.t) : bool :=
  gifencLoaded host && context2d host &&
  match load crossOrigin video with Loadedmetadata => true | _ => false end.

(** The error of line 119. *)
Definition loadFailure : Exception := Error "Video load failed".

Definition paletteSize (f : Frame) : nat := List.length (framePalette f).

(** The frame the j-th iteration hands to the encoder when its pixel read
    succeeds: the canvas then holds what the video shows after the j-th
    seek. *)
Definition sampled (video : Video.t) (j : nat) : Frame :=
  writeFrame video (shown video (S j)).

End CreateGif.

(** ** pollForVideo *)

Module Poll.

(** The fields of the operation handle the service module reads. *)
Record Operation := {
  done : bool;
  error : option string;
  uri : option string
}.

(** One turn of the loop as the environment decides it: by how much
    [sleep(5000)] overshoots, how long [getVideosOperation] takes, and what
    it answers. *)
Record Turn := {
  overshoot : N;
  latency : N;
  reply : Exception + Operation
}.

Definition MAX_WAIT_TIME : Z := 180000.

Definition timedOut : Exception := Error "Video generation timed out.".

(** How a call ended, after how many [getVideosOperation] requests, and what
    [Date.now()] read then. *)
Record Result := {
  outcome : Exception + Operation;
  polls : nat;
  finished : Z
}.

(** The [while (!op.done)] loop; [now] is the reading of [Date.now()].  One
    unit of fuel is one evaluation of the loop condition. *)
Fixpoint loop (service : nat -> Turn) (startTime : Z) (fuel : nat)
    (k : nat) (now : Z) (op : Operation) : option Result :=
  match fuel with
  | O => None
  | S fuel' =>
      if done op then Some {| outcome := inr op; polls := k; finished := now |}
      else if MAX_WAIT_TIME <? now - startTime then
        Some {| outcome := inl timedOut; polls := k; finished := now |}
      else
        let turn := service k in
        let woke := now + 5000 + Z.of_N (overshoot turn) in
        let answered := woke + Z.of_N (latency turn) in
        match reply turn with
        | inl e => Some {| outcome := inl e; polls := S k; finished := answered |}
        | inr op' => loop service startTime fuel' (S k) answered op'
        end
  end.

(** The function: [getAI()] of line 113 first, which throws when the client
    cannot be constructed ([Some e]); then [startTime] and the loop. *)
Definition pollForVideo (getAI : option Exception) (service : nat -> Turn) (now : Z)
    (operation : Operation) (fuel : nat) : option Result :=
  match getAI with
  | Some e => Some {| outcome := inl e; polls := O; finished := now |}
  | None =>
      let startTime := now in
      loop service startTime fuel O now operation
  end.

(** What [Date.now()] reads at the k-th evaluation of the loop condition
    (counted from 0) of a call that started at [now], when the turns before
    it were answered with operations. *)
Fixpoint checkTime (service : nat -> Turn) (now : Z) (k : nat) : Z :=
  match k with
  | O => now
  | S k' =>
      checkTime service now k' + 5000 + Z.of_N (overshoot (service k'))
      + Z.of_N (latency (service k'))
  end.

(** The operation the k-th evaluation of the loop condition looks at: the
    one passed in, then the answers; [None] when the request before it
    failed. *)
Definition opAt (service : nat -> Turn) (operation : Operation) (k : nat)
  : option Operation :=
  match k with
  | O => Some operation
  | S j => match reply (service j) with inr op => Some op | inl _ => None end
  end.

End Poll.

(** ** The same clip, played twice

    The same file from the same place: the same answer to [load()], the same
    metadata and the same pixel content at every timestamp.  When the
    [seeked] signals arrive is not part of the clip: it may differ from one
    run to the next. *)
Definition sameContent (a b : Video.t) : Prop :=
  Video.signal a = Video.signal b /\
  Video.duration a = Video.duration b /\
  Video.videoWidth a = Video.videoWidth b /\
  Video.videoHeight a = Video.videoHeight b /\
  Video.sameOrigin a = Video.sameOrigin b /\
  Video.allowsCors a = Video.allowsCors b /\
  (forall t, Video.pixels a t = Video.pixels b t).

(** ** A small concrete setting

    A stand-in for gifenc (the palette is the first [maxColors] colours of the
    buffer, every pixel is mapped to entry 0) and a 320x180 clip, on the
    page's own origin or on a server that does not approve CORS requests. *)
Module Sample.

Fixpoint colours (data : Uint8ClampedArray) : Palette :=
  match data with
  | r :: g :: b :: _ :: rest => (r, g, b) :: colours rest
  | _ => []
  end.

Definition quantize (data : Uint8ClampedArray) (maxColors : Z) : Palette :=
  firstn (Z.to_nat maxColors) (colours data).

Definition applyPalette (data : Uint8ClampedArray) (palette : Palette) : Uint8Array :=
  map (fun _ => x00) (colours data).

Definition host : Host := {| gifencLoaded := true; context2d := true |}.

(** One to three pixels, depending on the timestamp. *)
Definition pixels (t : Num.number) : Uint8ClampedArray :=
  match Num.Math_floor (Num.mul t (Num.ofZ 10)) with
  | Num.IInt z => List.concat (repeat [x10; x20; x30; xff] (S (Z.to_nat (z mod 3))))
  | _ => []
  end.

(** Even-numbered seeks signal after 40 ms, odd-numbered ones never. *)
Definition seeked (k : nat) : option N :=
  if Nat.even k then Some 40%N else None.

(** Every seek signals after 40 ms. *)
Definition prompt (k : nat) : option N := Some 40%N.

(** The same seeks completing, with other latencies: 900 ms, and 5 s for
    those that come too late. *)
Definition late (k : nat) : option N :=
  if Nat.even k then Some 900%N else Some 5000%N.

Definition clip (signal : LoadSignal) (duration : Num.number) (sameOrigin : bool)
    (seeked : nat -> option N) : Video.t :=
  {| Video.signal := signal;
     Video.duration := duration;
     Video.videoWidth := 320;
     Video.videoHeight := 180;
     Video.sameOrigin := sameOrigin;
     Video.allowsCors := false;
     Video.pixels := pixels;
     Video.seeked := seeked |}.

(** A service whose operation is done at the third request. *)
Definition service (k : nat) : Poll.Turn :=
  {| Poll.overshoot := 3;
     Poll.latency := 250;
     Poll.reply := inr {| Poll.done := Nat.leb 2 k; Poll.error := None; Poll.uri := None |} |}.

End Sample.

(** * The rest of the utilities, the service module and the page

    Strings that carry data (data URLs, base64 payloads, URLs) are sequences
    of UTF-16 code units, as in JavaScript: the regular expression of
    [cleanBase64] tells the line terminators U+2028 and U+2029 apart from
    other characters.  Error messages stay Rocq strings, as in [Exception]. *)

Module Str.

Definition JSString := list N.

(** A string literal of the source. *)
Definition units (s : string) : JSString :=
  map Ascii.N_of_ascii (list_ascii_of_string s).

(** ECMAScript's LineTerminator: LF, CR, LS, PS. *)
Definition isLineTerminator (u : N) : bool :=
  ((u =? 10) || (u =? 13) || (u =? 8232) || (u =? 8233))%N.

Definition comma : N := 44.

Fixpoint eqb (s t : JSString) : bool :=
  match s, t with
  | [], [] => true
  | a :: s', b :: t' => (a =? b)%N && eqb s' t'
  | _, _ => false
  end.

(** [s.startsWith(p)], returning what follows the prefix. *)
Fixpoint stripPrefix (p s : JSString) : option JSString :=
  match p, s with
  | [], _ => Some s
  | a :: p', b :: s' => if (a =? b)%N then stripPrefix p' s' else None
  | _ :: _, [] => None
  end.

Definition startsWith (p s : JSString) : bool :=
  match stripPrefix p s with Some _ => true | None => false end.

(** [s.includes(p)]. *)
Fixpoint includes (p s : JSString) : bool :=
  startsWith p s ||
  match s with
  | [] => false
  | _ :: s' => includes p s'
  end.

(** [s.split(sep)] for a non-empty separator: the pieces between the
    occurrences of [sep], found from left to right without overlap.  [skip]
    counts the units of a separator still to be passed over, [piece] holds
    the current piece in reverse. *)
Fixpoint splitFrom (sep : JSString) (s : JSString) (skip : nat) (piece : JSString)
  : list JSString :=
  match s with
  | [] => [rev piece]
  | u :: s' =>
      match skip with
      | S k => splitFrom sep s' k piece
      | O =>
          if startsWith sep s
          then rev piece :: splitFrom sep s' (List.length sep - 1) []
          else splitFrom sep s' O (u :: piece)
      end
  end.

Definition split (sep s : JSString) : list JSString := splitFrom sep s O [].

(** [s.replace(p, '')] for a string pattern [p]: the first occurrence of [p]
    is cut out. *)
Fixpoint removeFirst (p s : JSString) : JSString :=
  match stripPrefix p s with
  | Some rest => rest
  | None =>
      match s with
      | [] => []
      | u :: s' => u :: removeFirst p s'
      end
  end.

(** ECMAScript's WhiteSpace and LineTerminator units, which [trim] strips. *)
Definition isWhiteSpace (u : N) : bool :=
  ((u =? 9) || (u =? 10) || (u =? 11) || (u =? 12) || (u =? 13) || (u =? 32) ||
   (u =? 160) || (u =? 5760) || ((8192 <=? u) && (u <=? 8202)) ||
   (u =? 8232) || (u =? 8233) || (u =? 8239) || (u =? 8287) || (u =? 12288) ||
   (u =? 65279))%N.

Fixpoint trimStart (s : JSString) : JSString :=
  match s with
  | u :: s' => if isWhiteSpace u then trimStart s' else s
  | [] => []
  end.

(** [s.trim()]. *)
Definition trim (s : JSString) : JSString :=
  rev (trimStart (rev (trimStart s))).

End Str.

(** ** cleanBase64 *)

Module Utils.
Import Str.

(** What [.*,] can match at the head of [s]: [.] takes any unit but a line
    terminator, the star is greedy, so the comma matched is the last one of
    the first line.  The result is what follows that comma; [None] when the
    first line has no comma. *)
Fixpoint afterLastComma (s : JSString) : option JSString :=
  match s with
  | [] => None
  | u :: s' =>
      if isLineTerminator u then None
      else
        match afterLastComma s' with
        | Some rest => Some rest
        | None => if (u =? comma)%N then Some s' else None
        end
  end.

(** [data.replace(/^data:.*,/, '')] (line 31). *)
Definition cleanBase64 (data : JSString) : JSString :=
  match stripPrefix (units "data:") data with
  | Some rest =>
      match afterLastComma rest with
      | Some payload => payload
      | None => data
      end
  | None => data
  end.

(** *** getRandomStyle (lines 9-26) *)

Definition styles : list string :=
  [ "formed by fluffy white clouds in a deep blue summer sky";
    "written in glowing constellations against a dark nebula galaxy";
    "arranged using colorful autumn leaves on wet green grass";
    "reflected in cyberpunk neon puddles on a rainy street";
    "drawn with latte art foam in a ceramic coffee cup";
    "glowing as ancient magical runes carved into a dark cave wall";
    "displayed on a futuristic translucent holographic interface";
    "sculpted from melting surrealist gold in a desert landscape";
    "arranged with intricate mechanical gears and steampunk machinery";
    "formed by bioluminescent jellyfish in the deep ocean";
    "composed of vibrant colorful smoke swirling in a dark room";
    "carved into the bark of an ancient mossy oak tree";
    "made of sparkling diamonds scattered on black velvet" ]%string.

(** [styles[Math.floor(Math.random() * styles.length)]], for the double
    [Math.random()] returned; [None] is [undefined]: the index is not one
    of the array. *)
Definition getRandomStyle (random : Num.number) : option string :=
  match Num.Math_floor (Num.mul random (Num.ofZ (Z.of_nat (List.length styles)))) with
  | Num.IInt z => if z <? 0 then None else nth_error styles (Z.to_nat z)
  | _ => None
  end.

End Utils.

(** ** The service module: generateTextImage *)

Module Service.
Import Str.

(** Lines 57-59: the typography instruction is the caller's prompt when it is
    there and not blank, and the stock sentence otherwise. *)
Inductive Typography :=
| StockTypography
| CustomTypography (prompt : JSString).

Definition typoInstruction (typographyPrompt : option JSString) : Typography :=
  match typographyPrompt with
  | Some prompt =>
      if negb (Nat.eqb (List.length prompt) 0) && (0 <? List.length (trim prompt))%nat
      then CustomTypography prompt
      else StockTypography
  | None => StockTypography
  end.

(** The [inlineData] of a content part. *)
Record InlineData := {
  data : option JSString;
  mimeType : option JSString
}.

(** Lines 62-67: the reference image, a data URL, is cut at [;base64,]; the
    first piece without [data:] is the MIME type, the second piece the data
    ([undefined] when there is none). *)
Definition referencePart (referenceImage : JSString) : InlineData :=
  let pieces := split (units ";base64,") referenceImage in
  let mimeTypePart := nth 0 pieces [] in
  {| data := nth_error pieces 1;
     mimeType := Some (removeFirst (units "data:") mimeTypePart) |}.

(** The request of lines 55-84: with a reference image its inline data comes
    first; the text part is built from the text, the typography instruction
    and the style (the English of the templates is not spelled out). *)
Record ImageRequest := {
  reference : option InlineData;
  requestText : JSString;
  requestTypography : Typography;
  requestStyle : JSString
}.

Definition imageRequest (text style : JSString) (typographyPrompt referenceImage : option JSString)
  : ImageRequest :=
  {| reference :=
       match referenceImage with
       | Some url => if Nat.eqb (List.length url) 0 then None else Some (referencePart url)
       | None => None
       end;
     requestText := text;
     requestTypography := typoInstruction typographyPrompt;
     requestStyle := style |}.

(** A part of the model's answer; only [inlineData] is looked at. *)
Record Part := {
  inlineData : option InlineData
}.

(** What [generateTextImage] resolves to. *)
Record Image := {
  imageData : option JSString;
  imageMimeType : JSString
}.

(** Lines 98-106: the first part with inline data wins; a missing or empty
    MIME type becomes [image/png]; no such part is an error. *)
Fixpoint firstImage (parts : list Part) : Exception + Image :=
  match parts with
  | [] => inl (Error "No image generated")
  | part :: rest =>
      match inlineData part with
      | Some inline =>
          inr {| imageData := data inline;
                 imageMimeType :=
                   match mimeType inline with
                   | Some (u :: m) => u :: m
                   | _ => units "image/png"
                   end |}
      | None => firstImage rest
      end
  end.

(** [generateTextImage]: [getAI()] of line 54 comes first and throws when
    the client cannot be constructed ([Some e]); then the request goes out,
    and the answer of [ai.models.generateContent] -- an exception, or the
    parts of the first candidate, if it has any -- decides the result. *)
Definition generateTextImage
    (getAI : option Exception)
    (generateContent : ImageRequest -> Exception + option (list Part))
    (text style : JSString) (typographyPrompt referenceImage : option JSString)
  : Exception + Image :=
  match getAI with
  | Some e => inl e
  | None =>
      match generateContent (imageRequest text style typographyPrompt referenceImage) with
      | inl e => inl e
      | inr parts => firstImage (match parts with Some ps => ps | None => [] end)
      end
  end.

(** *** generateStyleSuggestion

    Lines 29-44.  [getAI()] of line 30 is outside the [try]: when the client
    cannot be constructed the promise is rejected.  Inside the [try], the
    result is the trimmed text of the answer, and the empty string when the
    request throws, the answer has no text, or the text is blank. *)
Definition generateStyleSuggestion (getAI : option Exception)
    (reply : Exception + option JSString) : Exception + JSString :=
  match getAI with
  | Some e => inl e
  | None =>
      inr match reply with
          | inl _ => []
          | inr None => []
          | inr (Some text) => trim text
          end
  end.

(** *** fetchVideoBlob *)

(** What [fetch] answers: [ok], [statusText], and what [blob()] followed by
    [URL.createObjectURL] gives. *)
Record Response := {
  ok : bool;
  statusText : string;
  objectURL : Exception + string
}.

(** The network and the process environment, for one call: [API_KEY]; the
    serialisation of [new URL(uri)] with the key appended to its query
    ([None]: the URI does not parse and [new URL] throws); what the n-th
    [fetch] of the call answers to a given URL. *)
Record Network := {
  API_KEY : option string;
  urlWithKey : string -> string -> option string;
  fetch : nat -> string -> Exception + Response
}.

(** [uri.includes('?')] *)
Fixpoint hasQuery (uri : string) : bool :=
  match uri with
  | EmptyString => false
  | String c rest => (Ascii.N_of_ascii c =? 63)%N || hasQuery rest
  end.

(** One [fetch] and the lines after it: lines 133-138, and 141-146. *)
Definition fetchOnce (net : Network) (n : nat) (url : string) : Exception + string :=
  match fetch net n url with
  | inl e => inl e
  | inr videoResponse =>
      if negb (ok videoResponse) then
        inl (Error ("Failed to fetch video content: " ++ statusText videoResponse))
      else objectURL videoResponse
  end.

(** Line 140. *)
Definition fallbackUrl (net : Network) (uri : string) : string :=
  (uri ++ (if hasQuery uri then "&" else "?") ++ "key=" ++
   match API_KEY net with Some key => key | None => "undefined" end)%string.

(** How [fetchVideoBlob] ended, and the URLs it fetched, in order. *)
Record Fetched := {
  fetchResult : Exception + string;
  fetchedUrls : list string
}.

(** [process.env.API_KEY || ''] (line 131). *)
Definition queryKey (net : Network) : string :=
  match API_KEY net with
  | Some (String c k) => String c k
  | _ => EmptyString
  end.

Definition fetchVideoBlob (net : Network) (uri : string) : Fetched :=
  let first :=
    match urlWithKey net uri (queryKey net) with
    | None => (inl TypeError, [])
    | Some url => (fetchOnce net 0 url, [url])
    end in
  match first with
  | (inr blobUrl, urls) => {| fetchResult := inr blobUrl; fetchedUrls := urls |}
  | (inl _, urls) =>
      {| fetchResult := fetchOnce net (List.length urls) (fallbackUrl net uri);
         fetchedUrls := urls ++ [fallbackUrl net uri] |}
  end.

(** *** generateTextVideo *)

(** The request of lines 163-179, less the English of the prompt. *)
Record VideoRequest := {
  promptText : JSString;
  promptStyle : JSString;
  startImage : JSString;
  lastFrame : JSString;
  lastFrameMimeType : JSString
}.

(** The environment of one call: whether [getAI()] of line 151 throws; the
    data URL [canvas.toDataURL] gives for the blank start frame; and for each
    of the attempts what [generateVideos] answers, whether the [getAI()] of
    its [pollForVideo] throws, what [Date.now()] reads when polling starts,
    the turns of the polling loop, and the network of the download.  Every
    request is answered: a request that never settles is not modelled. *)
Record Studio := {
  getAI : option Exception;
  pollGetAI : nat -> option Exception;
  toDataURL : JSString;
  generateVideos : nat -> VideoRequest -> Exception + Poll.Operation;
  clock : nat -> Z;
  service : nat -> nat -> Poll.Turn;
  network : nat -> Network
}.

(** [createBlankImage]: the canvas's PNG without its data URL header. *)
Definition createBlankImage (studio : Studio) : JSString :=
  Utils.cleanBase64 (toDataURL studio).

Definition maxRevealRetries : nat := 1.

(** What a call has done: how it ended ([None]: still polling when the fuel
    ran out), the calls of [generateVideos], the requests of
    [getVideosOperation], the URLs fetched and the calls of [sleep(3000)]. *)
Record Reveal := {
  revealed : option (Exception + string);
  generated : nat;
  polled : nat;
  downloads : list string;
  sleeps : nat
}.

(** How the body of the [try] block of one attempt ends. *)
Inductive Attempt :=
| Returns (url : string)
| Throws (e : Exception)
| OperationError (message : string)
| NothingUsable
| OutOfFuel.

(** Lines 160-193 for attempt [i]: the outcome, the polls and the URLs
    fetched. *)
Definition attempt (studio : Studio) (request : VideoRequest) (fuel i : nat)
  : Attempt * nat * list string :=
  match generateVideos studio i request with
  | inl e => (Throws e, O, [])
  | inr operation =>
      match Poll.pollForVideo (pollGetAI studio i) (service studio i) (clock studio i)
              operation fuel with
      | None => (OutOfFuel, O, [])
      | Some r =>
          match Poll.outcome r with
          | inl e => (Throws e, Poll.polls r, [])
          | inr op =>
              match Poll.error op, Poll.uri op with
              | None, Some (String c uri) =>
                  let f := fetchVideoBlob (network studio i) (String c uri) in
                  (match fetchResult f with
                   | inr url => Returns url
                   | inl e => Throws e
                   end, Poll.polls r, fetchedUrls f)
              | Some message, _ => (OperationError message, Poll.polls r, [])
              | None, _ => (NothingUsable, Poll.polls r, [])
              end
          end
      end
  end.

Definition ending (studio : Studio) (request : VideoRequest) (fuel i : nat) : Attempt :=
  fst (fst (attempt studio request fuel i)).

(** The [for] loop of lines 158-198, from iteration [i] with [n] iterations
    to go, and line 200 after it. *)
Fixpoint revealLoop (studio : Studio) (request : VideoRequest) (fuel n i : nat)
    (done : Reveal) : Reveal :=
  match n with
  | O =>
      {| revealed := Some (inl (Error "Unable to generate video."));
         generated := generated done; polled := polled done;
         downloads := downloads done; sleeps := sleeps done |}
  | S n' =>
      let '(ending, polls, urls) := attempt studio request fuel i in
      let after :=
        {| revealed := None;
           generated := S (generated done);
           polled := polled done + polls;
           downloads := downloads done ++ urls;
           sleeps := sleeps done |} in
      let slept :=
        {| revealed := None;
           generated := generated after; polled := polled after;
           downloads := downloads after; sleeps := S (sleeps after) |} in
      let ended (result : option (Exception + string)) :=
        {| revealed := result;
           generated := generated after; polled := polled after;
           downloads := downloads after; sleeps := sleeps after |} in
      (* the [catch] block of lines 194-197 *)
      let caught (error : Exception) :=
        if Nat.eqb i maxRevealRetries
        then ended (Some (inl error))
        else revealLoop studio request fuel n' (S i) slept in
      match ending with
      | Returns url => ended (Some (inr url))
      | OutOfFuel => ended None
      | NothingUsable => revealLoop studio request fuel n' (S i) after
      | OperationError message =>
          if (i <? maxRevealRetries)%nat
          then revealLoop studio request fuel n' (S i) slept
          else caught (Error message)
      | Throws e => caught e
      end
  end.

(** The request of every attempt: the blank start frame and, as last frame,
    the image without a data URL header. *)
Definition revealRequest (studio : Studio) (text imageBase64 imageMimeType promptStyle : JSString)
  : VideoRequest :=
  let cleanImageBase64 := Utils.cleanBase64 imageBase64 in
  {| promptText := text;
     promptStyle := promptStyle;
     startImage := createBlankImage studio;
     lastFrame := cleanImageBase64;
     lastFrameMimeType := imageMimeType |}.

(** Lines 150-201: [getAI()] first, outside the loop and its [try]; then
    the image check; then the attempts. *)
Definition generateTextVideo (studio : Studio) (text : JSString)
    (imageBase64 : option JSString) (imageMimeType promptStyle : JSString) (fuel : nat)
  : Reveal :=
  match getAI studio with
  | Some e =>
      {| revealed := Some (inl e);
         generated := O; polled := O; downloads := []; sleeps := O |}
  | None =>
      match imageBase64 with
      | Some (u :: image) =>
          revealLoop studio
            (revealRequest studio text (u :: image) imageMimeType promptStyle)
            fuel (S maxRevealRetries) O
            {| revealed := None; generated := O; polled := O; downloads := []; sleeps := O |}
      | _ =>
          {| revealed := Some (inl (Error "Image generation failed, cannot generate video."));
             generated := O; polled := O; downloads := []; sleeps := O |}
      end
  end.

End Service.

(** ** The page (App.tsx) *)

Module Page.
Import Str.

(** types.ts *)
Inductive AppState :=
| IDLE
| CHECKING_KEY
| GENERATING_IMAGE
| GENERATING_VIDEO
| PLAYING
| ERROR.

Inductive ViewMode := Gallery | Create.

(** [statusMessage]: a plain text, or the template [Designing "<text>"...]. *)
Inductive Status :=
| Plain (message : string)
| Designing (text : JSString).

(** The state of [App]. *)
Record App := {
  state : AppState;
  viewMode : ViewMode;
  showKeyDialog : bool;
  inputText : JSString;
  inputStyle : JSString;
  typographyPrompt : JSString;
  referenceImage : option JSString;
  imageSrc : option JSString;
  videoSrc : option string;
  statusMessage : Status;
  isGifGenerating : bool;
  isSuggestingStyle : bool
}.

(** *** The carousel *)

(** The titles of [MOCK_VIDEOS], in order. *)
Definition MOCK_VIDEOS : list string :=
  ["Cloud Formations"; "Elemental Fire"; "Mystic Smoke"; "Water Blast"]%string.

(** [handleNext] and [handlePrev] as functions of the previous index; [%]
    is the remainder with the sign of the dividend. *)
Definition handleNext (prev : Z) : Z :=
  Z.rem (prev + 1) (Z.of_nat (List.length MOCK_VIDEOS)).

Definition handlePrev (prev : Z) : Z :=
  Z.rem (prev - 1 + Z.of_nat (List.length MOCK_VIDEOS)) (Z.of_nat (List.length MOCK_VIDEOS)).

(** *** The suggestion button (lines 375-380)

    The handler has no [try]: when [generateStyleSuggestion] rejects, the
    lines after the [await] do not run and the flag set by line 376 stays
    up. *)
Definition suggestStyle (getAI : option Exception) (reply : Exception + option JSString)
    (app : App) : App :=
  let withStyle (style : JSString) (suggesting : bool) :=
    {| state := state app;
       viewMode := viewMode app;
       showKeyDialog := showKeyDialog app;
       inputText := inputText app;
       inputStyle := style;
       typographyPrompt := typographyPrompt app;
       referenceImage := referenceImage app;
       imageSrc := imageSrc app;
       videoSrc := videoSrc app;
       statusMessage := statusMessage app;
       isGifGenerating := isGifGenerating app;
       isSuggestingStyle := suggesting |} in
  match Service.generateStyleSuggestion getAI reply with
  | inl _ => withStyle (inputStyle app) true
  | inr suggestion =>
      withStyle (match suggestion with [] => inputStyle app | _ => suggestion end) false
  end.

(** *** startProcess *)

(** [s.includes(p)] on messages. *)
Fixpoint includes (p s : string) : bool :=
  String.prefix p s ||
  match s with
  | EmptyString => false
  | String _ s' => includes p s'
  end.

(** What [startProcess] meets: the answer of
    [window.aistudio?.hasSelectedApiKey()] ([None] without [aistudio]), the
    style [getRandomStyle] picks, and how the two service calls end on their
    arguments; of a failure only [err.message] is read ([None]: it has
    none). *)
Record Session := {
  hasSelectedApiKey : option bool;
  getRandomStyle : JSString;
  generateTextImage :
    JSString -> JSString -> JSString -> option JSString -> option string + Service.Image;
  generateTextVideo :
    JSString -> option JSString -> JSString -> JSString -> option string + string
}.

(** The [catch] block of lines 242-252. *)
Definition failed (err : option string) (app : App) : App :=
  let msg := match err with Some (String c m) => String c m | _ => EmptyString end in
  if includes "Requested entity was not found" msg || includes "404" msg then
    {| state := IDLE;
       viewMode := viewMode app;
       showKeyDialog := true;
       inputText := inputText app;
       inputStyle := inputStyle app;
       typographyPrompt := typographyPrompt app;
       referenceImage := referenceImage app;
       imageSrc := imageSrc app;
       videoSrc := videoSrc app;
       statusMessage := statusMessage app;
       isGifGenerating := isGifGenerating app;
       isSuggestingStyle := isSuggestingStyle app |}
  else
    {| state := ERROR;
       viewMode := viewMode app;
       showKeyDialog := showKeyDialog app;
       inputText := inputText app;
       inputStyle := inputStyle app;
       typographyPrompt := typographyPrompt app;
       referenceImage := referenceImage app;
       imageSrc := imageSrc app;
       videoSrc := videoSrc app;
       statusMessage :=
         Plain (match msg with
                | EmptyString => "Something went wrong creating your art."
                | _ => msg
                end);
       isGifGenerating := isGifGenerating app;
       isSuggestingStyle := isSuggestingStyle app |}.

(** The data URL of line 230; an undefined value prints as [undefined]. *)
Definition dataUrl (mimeType : JSString) (b64Image : option JSString) : JSString :=
  units "data:" ++ mimeType ++ units ";base64," ++
  match b64Image with Some b64 => b64 | None => units "undefined" end.

(** [startProcess] (lines 205-253): the page afterwards, and the object URLs
    revoked on the way. *)
Definition startProcess (session : Session) (app : App) : App * list string :=
  match trim (inputText app) with
  | [] => (app, [])
  | _ :: _ =>
      match hasSelectedApiKey session with
      | Some true =>
          let revoked :=
            match videoSrc app with
            | Some url => if String.prefix "blob:" url then [url] else []
            | None => []
            end in
          let styleToUse :=
            match trim (inputStyle app) with
            | [] => getRandomStyle session
            | style => style
            end in
          (* lines 216-223; the effect of lines 178-182 runs when [state]
             has changed *)
          let designing :=
            {| state := GENERATING_IMAGE;
               viewMode :=
                 match state app with
                 | GENERATING_IMAGE => viewMode app
                 | _ => Create
                 end;
               showKeyDialog := showKeyDialog app;
               inputText := inputText app;
               inputStyle := inputStyle app;
               typographyPrompt := typographyPrompt app;
               referenceImage := referenceImage app;
               imageSrc := None;
               videoSrc := None;
               statusMessage := Designing (inputText app);
               isGifGenerating := false;
               isSuggestingStyle := isSuggestingStyle app |} in
          let reference :=
            match referenceImage app with
            | Some (u :: url) => Some (u :: url)
            | _ => None
            end in
          match generateTextImage session (inputText app) styleToUse
                  (typographyPrompt app) reference with
          | inl err => (failed err designing, revoked)
          | inr image =>
              let animating :=
                {| state := GENERATING_VIDEO;
                   viewMode := Create;
                   showKeyDialog := showKeyDialog app;
                   inputText := inputText app;
                   inputStyle := inputStyle app;
                   typographyPrompt := typographyPrompt app;
                   referenceImage := referenceImage app;
                   imageSrc :=
                     Some (dataUrl (Service.imageMimeType image) (Service.imageData image));
                   videoSrc := None;
                   statusMessage := Plain "Animating...";
                   isGifGenerating := false;
                   isSuggestingStyle := isSuggestingStyle app |} in
              match generateTextVideo session (inputText app) (Service.imageData image)
                      (Service.imageMimeType image) styleToUse with
              | inl err => (failed err animating, revoked)
              | inr videoUrl =>
                  ({| state := PLAYING;
                      viewMode := Create;
                      showKeyDialog := showKeyDialog app;
                      inputText := inputText app;
                      inputStyle := inputStyle app;
                      typographyPrompt := typographyPrompt app;
                      referenceImage := referenceImage app;
                      imageSrc := imageSrc animating;
                      videoSrc := Some videoUrl;
                      statusMessage := Plain "Done.";
                      isGifGenerating := false;
                      isSuggestingStyle := isSuggestingStyle app |}, revoked)
              end
          end
      | _ =>
          ({| state := state app;
              viewMode := viewMode app;
              showKeyDialog := true;
              inputText := inputText app;
              inputStyle := inputStyle app;
              typographyPrompt := typographyPrompt app;
              referenceImage := referenceImage app;
              imageSrc := imageSrc app;
              videoSrc := videoSrc app;
              statusMessage := statusMessage app;
              isGifGenerating := isGifGenerating app;
              isSuggestingStyle := isSuggestingStyle app |}, [])
      end
  end.

(** *** handleDownloadGif (lines 273-291)

    What the user gets: an alert, or a download; [gifPromise] is the promise
    [createGifFromVideo(videoSrc)] returned.  While it is pending the
    function waits and the flag stays up. *)
Record Outcome := {
  page : App;
  alerts : list string;
  downloaded : list Blob
}.

Definition withGifFlag (flag : bool) (app : App) : App :=
  {| state := state app;
     viewMode := viewMode app;
     showKeyDialog := showKeyDialog app;
     inputText := inputText app;
     inputStyle := inputStyle app;
     typographyPrompt := typographyPrompt app;
     referenceImage := referenceImage app;
     imageSrc := imageSrc app;
     videoSrc := videoSrc app;
     statusMessage := statusMessage app;
     isGifGenerating := flag;
     isSuggestingStyle := isSuggestingStyle app |}.

Definition handleDownloadGif (gifPromise : string -> Promise) (app : App) : Outcome :=
  match videoSrc app with
  | Some (String c url) =>
      match gifPromise (String c url) with
      | Pending =>
          {| page := withGifFlag true app; alerts := []; downloaded := [] |}
      | Fulfilled gifBlob =>
          {| page := withGifFlag false app; alerts := []; downloaded := [gifBlob] |}
      | Rejected _ =>
          {| page := withGifFlag false app;
             alerts := ["Could not generate GIF from this video."%string];
             downloaded := [] |}
      end
  | _ => {| page := app; alerts := []; downloaded := [] |}
  end.

End Page.

(** ** Small concrete studios and sessions *)

Module Studios.
Import Str Service.

(** A network that serves every URL. *)
Definition openNetwork : Network :=
  {| API_KEY := Some "k"%string;
     urlWithKey := fun uri key => Some (uri ++ "?key=" ++ key)%string;
     fetch := fun _ _ =>
       inr {| ok := true; statusText := "OK"; objectURL := inr "blob:video"%string |} |}.

Definition neverAsked : Poll.Turn :=
  {| Poll.overshoot := 0; Poll.latency := 0; Poll.reply := inl TypeError |}.

(** A service whose operations are done at once, with a video. *)
Definition readyStudio : Studio :=
  {| getAI := None;
     pollGetAI := fun _ => None;
     toDataURL := units "data:image/png;base64,AAAA";
     generateVideos := fun _ _ =>
       inr {| Poll.done := true; Poll.error := None;
              Poll.uri := Some "https://videos.test/v1"%string |};
     clock := fun _ => 0;
     service := fun _ _ => neverAsked;
     network := fun _ => openNetwork |}.

(** A service that refuses the first request and whose second operation ends
    with an error. *)
Definition failingStudio : Studio :=
  {| getAI := None;
     pollGetAI := fun _ => None;
     toDataURL := units "data:image/png;base64,AAAA";
     generateVideos := fun i _ =>
       match i with
       | O => inl (Error "overloaded")
       | _ => inr {| Poll.done := true; Poll.error := Some "quota exceeded"%string;
                     Poll.uri := None |}
       end;
     clock := fun _ => 0;
     service := fun _ _ => neverAsked;
     network := fun _ => openNetwork |}.

Definition blankPage : Page.App :=
  {| Page.state := Page.IDLE;
     Page.viewMode := Page.Gallery;
     Page.showKeyDialog := false;
     Page.inputText := [];
     Page.inputStyle := [];
     Page.typographyPrompt := [];
     Page.referenceImage := None;
     Page.imageSrc := None;
     Page.videoSrc := None;
     Page.statusMessage := Page.Plain "";
     Page.isGifGenerating := false;
     Page.isSuggestingStyle := false |}.

(** A page with a text typed in, and a session with a key whose two
    service calls succeed. *)
Definition typedPage : Page.App :=
  {| Page.state := Page.IDLE;
     Page.viewMode := Page.Create;
     Page.showKeyDialog := false;
     Page.inputText := units "Hi";
     Page.inputStyle := [];
     Page.typographyPrompt := [];
     Page.referenceImage := None;
     Page.imageSrc := None;
     Page.videoSrc := None;
     Page.statusMessage := Page.Plain "";
     Page.isGifGenerating := false;
     Page.isSuggestingStyle := false |}.

Definition goodSession : Page.Session :=
  {| Page.hasSelectedApiKey := Some true;
     Page.getRandomStyle := units "made of sparkling diamonds scattered on black velvet";
     Page.generateTextImage := fun _ _ _ _ =>
       inr {| imageData := Some (units "AAAA"); imageMimeType := units "image/png" |};
     Page.generateTextVideo := fun _ _ _ _ => inr "blob:video"%string |}.

End Studios.

(** * Properties *)

(** ** Integer-valued doubles *)

Module NumFacts.
Import Num.

Lemma roundZ_exact (z : Z) : Z.abs z <= 2 ^ 53 -> roundZ z = z.
Proof.
  intros Hz.
  destruct (Z.eq_dec (Z.abs z) (2 ^ 53)) as [Heq | Hne].
  - destruct (Z.abs_eq_or_opp z) as [H | H]; rewrite H in Heq.
    + subst z. vm_compute. reflexivity.
    + assert (z = - 2 ^ 53) by lia. subst z. vm_compute. reflexivity.
  - unfold roundZ.
    destruct (Z.eq_dec (Z.abs z) 0) as [H0 | H0].
    + rewrite H0. reflexivity.
    + assert (Hlog : Z.log2 (Z.abs z) < 53)
        by (apply Z.log2_lt_pow2; lia).
      unfold prec.
      destruct (Z.leb_spec (Z.log2 (Z.abs z) + 1 - 53) 0); [reflexivity | lia].
Qed.

(** Rounding never takes an integer of more than 53 bits below [2^53]. *)
Lemma roundZ_large (z : Z) : 0 < Z.log2 (Z.abs z) + 1 - prec -> 2 ^ 53 <= Z.abs (roundZ z).
Proof.
  intros Hk. unfold roundZ.
  set (a := Z.abs z) in *. set (k := Z.log2 a + 1 - prec) in *.
  destruct (Z.leb_spec k 0) as [Hle | _]; [lia |].
  assert (Ha : 0 < a).
  { destruct (Z.eq_dec a 0) as [E | E]; [| subst a; lia].
    exfalso. subst k. rewrite E in Hk. unfold prec in Hk. simpl in Hk. lia. }
  assert (Hspec := Z.log2_spec a Ha).
  assert (Hq : 2 ^ 52 <= Z.shiftr a k).
  { rewrite Z.shiftr_div_pow2 by lia.
    assert (Hsplit : 2 ^ Z.log2 a = 2 ^ 52 * 2 ^ k).
    { rewrite <- Z.pow_add_r by lia. f_equal. subst k. unfold prec. lia. }
    apply Z.div_le_lower_bound; [apply Z.pow_pos_nonneg; lia |].
    rewrite Z.mul_comm. lia. }
  set (q := Z.shiftr a k) in *.
  set (q' := match Z.land a (Z.ones k) ?= Z.shiftl 1 (k - 1) with
             | Eq => if Z.even q then q else q + 1
             | Lt => q
             | Gt => q + 1
             end).
  assert (Hq' : q <= q').
  { subst q'. destruct (Z.land a (Z.ones k) ?= Z.shiftl 1 (k - 1));
      [destruct (Z.even q) |..]; lia. }
  rewrite Z.shiftl_mul_pow2 by lia.
  assert (Hpk : 2 <= 2 ^ k).
  { change 2 with (2 ^ 1) at 1. apply Z.pow_le_mono_r; lia. }
  assert (Hsgn : Z.abs (Z.sgn z) = 1) by (subst a; lia).
  rewrite Z.abs_mul, Hsgn, Z.mul_1_l, Z.abs_eq by nia.
  change (2 ^ 53) with (2 ^ 52 * 2). nia.
Qed.

Lemma roundZ_small_inv (z : Z) : Z.abs (roundZ z) < 2 ^ 53 -> roundZ z = z.
Proof.
  intros Hsmall.
  destruct (Z.leb_spec (Z.log2 (Z.abs z) + 1 - prec) 0) as [Hle | Hgt].
  - unfold roundZ. apply Z.leb_le in Hle. rewrite Hle. reflexivity.
  - apply roundZ_large in Hgt. lia.
Qed.

(** Rounding keeps an even integer even: either nothing is rounded away, or
    the result is a multiple of [2^k] with [k >= 1]. *)
Lemma roundZ_even (z : Z) : Z.even z = true -> Z.even (roundZ z) = true.
Proof.
  intros Hz. unfold roundZ.
  destruct (Z.leb_spec (Z.log2 (Z.abs z) + 1 - prec) 0) as [_ | Hk]; [exact Hz |].
  set (k := Z.log2 (Z.abs z) + 1 - prec) in *.
  match goal with |- Z.even (_ * Z.shiftl ?q k) = true => generalize q; intros q' end.
  rewrite Z.shiftl_mul_pow2 by lia.
  replace k with (Z.succ (k - 1)) by lia. rewrite Z.pow_succ_r by lia.
  rewrite !Z.even_mul. simpl Z.even. rewrite !orb_true_r. reflexivity.
Qed.

(** Below [2^53] the counter counts. *)
Lemma plus1_exact (z : Z) : 0 <= z < 2 ^ 53 -> plus1 (IInt z) = IInt (z + 1).
Proof.
  intros Hz. simpl. rewrite roundZ_exact by lia. reflexivity.
Qed.

(** [roundZ] against the library's rounding, at and beyond [2^53]. *)
Example plus1_as_SFadd :
  Math_floor (SFadd prec emax (ofZ (2 ^ 53)) (ofZ 1)) = plus1 (IInt (2 ^ 53)) /\
  Math_floor (SFadd prec emax (ofZ (2 ^ 53 + 2)) (ofZ 1)) = plus1 (IInt (2 ^ 53 + 2)) /\
  Math_floor (SFadd prec emax (ofZ 19) (ofZ 1)) = plus1 (IInt 19).
Proof. vm_compute. repeat split. Qed.

Example minus1_as_SFsub :
  Math_floor (SFsub prec emax (ofZ 225) (ofZ 1)) = minus1 (IInt 225) /\
  Math_floor (SFsub prec emax (ofZ (2 ^ 60)) (ofZ 1)) = minus1 (IInt (2 ^ 60)).
Proof. vm_compute. repeat split. Qed.

(** [lt] and [rem] against the library's comparison and the doubles they
    stand for; integers up to [2^53] survive the passage through a double. *)
Example lt_as_SFltb :
  SFltb (ofZ 19) (mul (ofZ 2) (ofZ 10)) =
    lt (IInt 19) (Math_floor (mul (ofZ 2) (ofZ 10))) /\
  SFltb (ofZ 20) (mul (ofZ 2) (ofZ 10)) =
    lt (IInt 20) (Math_floor (mul (ofZ 2) (ofZ 10))) /\
  SFltb (ofZ 0) S754_nan = lt (IInt 0) INaN /\
  SFltb (ofZ 7) (S754_infinity false) = lt (IInt 7) (IInf false).
Proof. vm_compute. repeat split. Qed.

Example ofZ_exact :
  forallb (fun z => match Math_floor (ofZ z) with IInt z' => z =? z' | _ => false end)
    [0; 1; 2; 19; 224; 225; 400; 2 ^ 31; 2 ^ 53 - 1; 2 ^ 53; - 3; - (2 ^ 53)] = true.
Proof. vm_compute. reflexivity. Qed.

Example roundZ_as_binary_normalize :
  map (fun z => Math_floor (ofZ z)) [2 ^ 53 + 1; 2 ^ 53 + 3; 2 ^ 60 + 128; - (2 ^ 60 + 192)] =
  map (fun z => IInt (roundZ z)) [2 ^ 53 + 1; 2 ^ 53 + 3; 2 ^ 60 + 128; - (2 ^ 60 + 192)].
Proof. vm_compute. reflexivity. Qed.

End NumFacts.

(** ** The frame loop *)

Section FrameLoopFacts.

Variable quantize : Uint8ClampedArray -> Z -> Palette.
Variable applyPalette : Uint8ClampedArray -> Palette -> Uint8Array.

Local Abbreviation frameLoop := (frameLoop quantize applyPalette).
Local Abbreviation sampled := (sampled quantize applyPalette).
Local Abbreviation createGifFromVideo := (createGifFromVideo quantize applyPalette).

Lemma counter_count (k : nat) :
  Z.of_nat k <= 2 ^ 53 -> counter k = Num.IInt (Z.of_nat k).
Proof.
  induction k as [| k IH]; intros Hk; [reflexivity |].
  change (counter (S k)) with (Num.plus1 (counter k)).
  rewrite IH by lia. rewrite NumFacts.plus1_exact by lia.
  f_equal. lia.
Qed.

(** One evaluation of the loop condition, from the state [k] iterations
    leave. *)
Lemma frameLoop_step (video : Video.t) (fuel k : nat) (g : list Frame) :
  frameLoop video (S fuel) (stateAt video k g) =
  if Num.lt (counter k) (totalFrames video) then
    match getImageData (height video) (canvasAt video (S k)) with
    | inl e => {| promise := Rejected e; written := g; console := [e] |}
    | inr data =>
        frameLoop video fuel
          (stateAt video (S k) (g ++ [writeFrame quantize applyPalette video data]))
    end
  else
    {| promise := Fulfilled {| blobFrames := g; blobType := "image/gif" |};
       written := g;
       console := [] |}.
Proof. reflexivity. Qed.

(** Drawing a video fetched in CORS mode never taints the canvas. *)
Lemma canvasAt_clean (video : Video.t) (k : nat) :
  tainted (canvasAt video k) = false.
Proof.
  induction k as [| k IH]; [reflexivity |].
  simpl. unfold drawImage. destruct (height video); auto.
  simpl. rewrite IH. reflexivity.
Qed.

(** A pixel read that succeeds returns what the video shows, and tells that
    the raster is well formed. *)
Lemma getImageData_inr (video : Video.t) (k : nat) (data : Uint8ClampedArray) :
  getImageData (height video) (canvasAt video (S k)) = inr data ->
  data = shown video (S k) /\ rasterOk video = true.
Proof.
  unfold rasterOk, getImageData. simpl canvasAt. unfold drawImage.
  destruct (height video) as [| s | h]; try discriminate.
  destruct ((h <? - 2 ^ 31) || (2 ^ 31 - 1 <? h)) eqn:Hrange; [discriminate |].
  destruct (h =? 0) eqn:Hzero; [discriminate |].
  cbn [tainted bitmap]. rewrite canvasAt_clean. simpl.
  intros H. injection H as <-.
  apply orb_false_elim in Hrange. destruct Hrange as [Hlo Hhi].
  split; [reflexivity |].
  apply andb_true_intro; split; [apply andb_true_intro; split |]; lia.
Qed.

Lemma getImageData_ok (video : Video.t) (k : nat) :
  rasterOk video = true ->
  getImageData (height video) (canvasAt video (S k)) = inr (shown video (S k)).
Proof.
  unfold rasterOk, getImageData. intros Hok.
  assert (Hclean := canvasAt_clean video (S k)).
  simpl canvasAt in *. unfold drawImage in *.
  destruct (height video) as [| s | h]; try discriminate.
  cbn [tainted bitmap] in *. rewrite Hclean.
  apply andb_prop in Hok. destruct Hok as [Hok Hnz].
  apply andb_prop in Hok. destruct Hok as [Hlo Hhi].
  replace (h <? - 2 ^ 31) with false by lia.
  replace (2 ^ 31 - 1 <? h) with false by lia.
  destruct (h =? 0); [discriminate | reflexivity].
Qed.

(** Whatever the fuel and the environment, the encoder holds the frames of
    the first [m] iterations, in order, and nothing else. *)
Lemma frameLoop_written (video : Video.t) (fuel k : nat) (g : list Frame) :
  exists m : nat,
    written (frameLoop video fuel (stateAt video k g)) = g ++ map (sampled video) (seq k m) /\
    (m <> O -> rasterOk video = true).
Proof.
  revert k g. induction fuel as [| fuel IH]; intros k g.
  - exists O. simpl. rewrite app_nil_r. split; [reflexivity | congruence].
  - rewrite frameLoop_step.
    destruct (Num.lt (counter k) (totalFrames video)).
    + destruct (getImageData (height video) (canvasAt video (S k))) as [e | data] eqn:Hget.
      * exists O. simpl. rewrite app_nil_r. split; [reflexivity | congruence].
      * apply getImageData_inr in Hget. destruct Hget as [-> Hok].
        destruct (IH (S k) (g ++ [writeFrame quantize applyPalette video (shown video (S k))]))
          as [m [Hw _]].
        exists (S m). split; [| intros _; exact Hok].
        rewrite Hw, <- app_assoc. reflexivity.
    + exists O. simpl. rewrite app_nil_r. split; [reflexivity | congruence].
Qed.

(** A run from scratch: the same for the whole function. *)
Lemma createGifFromVideo_written (host : Host) (video : Video.t) (fuel : nat) :
  exists m : nat,
    written (createGifFromVideo host video fuel) = map (sampled video) (seq 0 m) /\
    (m <> O -> rasterOk video = true).
Proof.
  unfold createGifFromVideo, onloadedmetadata.
  destruct (gifencLoaded host); simpl negb; cbv iota;
    [| exists O; split; [reflexivity | congruence]].
  destruct (load crossOrigin video);
    try (exists O; split; [reflexivity | congruence]).
  destruct (context2d host); simpl negb; cbv iota;
    [| exists O; split; [reflexivity | congruence]].
  exact (frameLoop_written video fuel O []).
Qed.

(** The loop on a readable clip with a finite frame count: it ends after
    [n] iterations and fulfils the promise with all frames. *)
Lemma frameLoop_completes (video : Video.t) (n : Z) :
  rasterOk video = true ->
  totalFrames video = Num.IInt n -> 0 <= n <= 2 ^ 53 ->
  forall (fuel k : nat) (g : list Frame),
    Z.of_nat k <= n -> (Z.to_nat n - k < fuel)%nat ->
    frameLoop video fuel (stateAt video k g) =
    let frames := g ++ map (sampled video) (seq k (Z.to_nat n - k)) in
    {| promise := Fulfilled {| blobFrames := frames; blobType := "image/gif" |};
       written := frames;
       console := [] |}.
Proof.
  intros Hok Htotal Hn fuel.
  induction fuel as [| fuel IH]; intros k g Hk Hfuel; [lia |].
  rewrite frameLoop_step, Htotal, counter_count by lia. simpl Num.lt.
  destruct (Z.ltb_spec (Z.of_nat k) n) as [Hlt | Hge].
  - rewrite getImageData_ok by assumption.
    rewrite IH by lia. cbv zeta.
    replace (Z.to_nat n - k)%nat with (S (Z.to_nat n - S k)) by lia.
    simpl seq. simpl map. rewrite <- app_assoc. reflexivity.
  - replace (Z.to_nat n - k)%nat with O by lia.
    cbv zeta. simpl. rewrite app_nil_r. reflexivity.
Qed.

(** A seek that times out leaves the video on the frame it showed: the
    frame written for it repeats the previous one. *)
Lemma timed_out_seek_repeats_frame (video : Video.t) (k : nat) :
  seekCompletes video (S k) = false -> sampled video (S k) = sampled video k.
Proof.
  intros Hseek. unfold sampled.
  change (shown video (S (S k)))
    with (if seekCompletes video (S k) then Video.pixels video (timeOf (S k))
          else shown video (S k)).
  rewrite Hseek. reflexivity.
Qed.

Lemma counter_integer (k : nat) : exists z : Z, counter k = Num.IInt z.
Proof.
  induction k as [| k [z IH]]; [exists 0; reflexivity |].
  change (counter (S k)) with (Num.plus1 (counter k)). rewrite IH.
  eexists. reflexivity.
Qed.

(** A clip of unbounded duration (a live stream, a recording without a
    duration header) keeps the loop running: the promise never settles. *)
Lemma unbounded_duration_never_settles (video : Video.t) :
  rasterOk video = true -> totalFrames video = Num.IInf false ->
  forall (fuel k : nat) (g : list Frame),
    promise (frameLoop video fuel (stateAt video k g)) = Pending.
Proof.
  intros Hok Htotal fuel.
  induction fuel as [| fuel IH]; intros k g; [reflexivity |].
  rewrite frameLoop_step, Htotal.
  destruct (counter_integer k) as [z ->]. simpl Num.lt.
  rewrite getImageData_ok by assumption. apply IH.
Qed.

End FrameLoopFacts.

(** ** createGifFromVideo *)

Section Conversion.

Variable quantize : Uint8ClampedArray -> Z -> Palette.
Variable applyPalette : Uint8ClampedArray -> Palette -> Uint8Array.

Local Abbreviation frameLoop := (frameLoop quantize applyPalette).
Local Abbreviation sampled := (sampled quantize applyPalette).
Local Abbreviation writeFrame := (writeFrame quantize applyPalette).
Local Abbreviation createGifFromVideo := (createGifFromVideo quantize applyPalette).

Lemma started_run (host : Host) (video : Video.t) (fuel : nat) :
  started host video = true ->
  createGifFromVideo host video fuel = frameLoop video fuel (stateAt video O []).
Proof.
  unfold started, createGifFromVideo, onloadedmetadata. intros H.
  apply andb_prop in H. destruct H as [H Hsig].
  apply andb_prop in H. destruct H as [-> ->].
  destruct (load crossOrigin video); try discriminate. reflexivity.
Qed.

(** A started run on a readable clip with [n] frames to sample. *)
Lemma run_completes (host : Host) (video : Video.t) (n : Z) (fuel : nat) :
  started host video = true -> rasterOk video = true ->
  totalFrames video = Num.IInt n -> 0 <= n <= 2 ^ 53 -> (Z.to_nat n < fuel)%nat ->
  createGifFromVideo host video fuel =
  let frames := map (sampled video) (seq 0 (Z.to_nat n)) in
  {| promise := Fulfilled {| blobFrames := frames; blobType := "image/gif" |};
     written := frames;
     console := [] |}.
Proof.
  intros Hst Hok Htot Hn Hfuel.
  rewrite started_run by assumption.
  rewrite (frameLoop_completes quantize applyPalette video n) by (assumption || lia).
  cbv zeta. rewrite Nat.sub_0_r. reflexivity.
Qed.

(** The blob of a fulfilled promise holds the frames written. *)
Lemma fulfilled_blob (host : Host) (video : Video.t) (fuel : nat) (blob : Blob) :
  promise (createGifFromVideo host video fuel) = Fulfilled blob ->
  blobFrames blob = written (createGifFromVideo host video fuel).
Proof.
  assert (Hloop : forall fuel st,
    promise (frameLoop video fuel st) = Fulfilled blob ->
    blobFrames blob = written (frameLoop video fuel st)).
  { clear fuel. induction fuel as [| fuel IH]; intros st; simpl; [discriminate |].
    destruct (Num.lt (i st) (totalFrames video)).
    - destruct (getImageData _ _); [simpl; discriminate | apply IH].
    - simpl. intros H. injection H as <-. reflexivity. }
  unfold createGifFromVideo, onloadedmetadata.
  destruct (gifencLoaded host); simpl negb; cbv iota; [| simpl; discriminate].
  destruct (load crossOrigin video); try (simpl; discriminate).
  destruct (context2d host); simpl negb; cbv iota; [| simpl; discriminate].
  apply Hloop.
Qed.

(** C1: a valid clip -- the page has gifenc and a 2D context, the metadata
    loaded, [getImageData] accepts the raster, the reported duration [D] is
    truthy and [floor(D * fps)] is a count [n] the loop counter can reach --
    yields a fulfilled promise whose container holds exactly
    [n = floor(D * fps)] frames, one written per iteration. *)
Theorem frame_count_is_floor_of_duration_times_fps
    (host : Host) (video : Video.t) (n : Z) (fuel : nat) :
  started host video = true -> rasterOk video = true ->
  Num.truthy (Video.duration video) = true ->
  Num.Math_floor (Num.mul (Video.duration video) (Num.ofZ fps)) = Num.IInt n ->
  0 <= n <= 2 ^ 53 -> (Z.to_nat n < fuel)%nat ->
  exists blob : Blob,
    promise (createGifFromVideo host video fuel) = Fulfilled blob /\
    blobFrames blob = written (createGifFromVideo host video fuel) /\
    Z.of_nat (List.length (blobFrames blob)) = n /\
    totalFrames video = Num.IInt n /\
    fps = 10.
Proof.
  intros Hst Hok Htruthy Hfloor Hn Hfuel.
  assert (Htot : totalFrames video = Num.IInt n).
  { unfold totalFrames, duration, Num.or. rewrite Htruthy. exact Hfloor. }
  rewrite (run_completes host video n fuel) by assumption.
  cbv zeta. eexists. split; [reflexivity |]. cbn [blobFrames written].
  repeat split; [| exact Htot].
  rewrite length_map, length_seq. lia.
Qed.

(** C2: on a clip that is otherwise fine, a seek whose [seeked] signal does
    not arrive before the 1000 ms timer still gets its frame: the promise is
    fulfilled, the container has all [totalFrames] frames, the frame at that
    index is rendered from what the video was showing, and nothing is
    reported on the console.  Nothing is assumed about the seeks of the other
    indices. *)
Theorem seek_timeout_still_appends_a_frame
    (host : Host) (video : Video.t) (n : Z) (fuel k : nat) :
  started host video = true -> rasterOk video = true ->
  totalFrames video = Num.IInt n -> 0 <= n <= 2 ^ 53 -> (Z.to_nat n < fuel)%nat ->
  Z.of_nat k < n -> seekCompletes video k = false ->
  exists blob : Blob,
    promise (createGifFromVideo host video fuel) = Fulfilled blob /\
    List.length (blobFrames blob) = Z.to_nat n /\
    nth_error (blobFrames blob) k = Some (writeFrame video (shown video k)) /\
    console (createGifFromVideo host video fuel) = [].
Proof.
  intros Hst Hok Htot Hn Hfuel Hk Hseek.
  rewrite (run_completes host video n fuel) by assumption.
  cbv zeta. eexists. split; [reflexivity |]. cbn [blobFrames console].
  repeat split.
  - rewrite length_map, length_seq. reflexivity.
  - rewrite nth_error_map, nth_error_seq.
    destruct (Nat.ltb_spec k (Z.to_nat n)) as [_ | Hge]; [| lia].
    simpl. unfold sampled. simpl shown. rewrite Hseek. reflexivity.
Qed.

(** C3: when the page has gifenc and the browser signals a load error instead
    of the metadata, the promise is rejected with the error of line 119, no
    frame is written and no blob is ever produced. *)
Theorem load_error_rejects_without_container
    (host : Host) (video : Video.t) (fuel : nat) :
  gifencLoaded host = true -> load crossOrigin video = LoadError ->
  promise (createGifFromVideo host video fuel) = Rejected loadFailure /\
  written (createGifFromVideo host video fuel) = [] /\
  forall blob : Blob, promise (createGifFromVideo host video fuel) <> Fulfilled blob.
Proof.
  intros Hlib Hsig. unfold createGifFromVideo. rewrite Hlib, Hsig. simpl.
  repeat split. discriminate.
Qed.

(** C10: a clip that reports a falsy duration ([0], [-0] or [NaN]) is sampled
    as if it lasted 5 seconds: the container holds [floor(5 * 10) = 50]
    frames, which is not [floor(reported duration * fps)] (that is 0, or
    [NaN]). *)
Theorem falsy_duration_yields_fifty_frames
    (host : Host) (video : Video.t) (fuel : nat) :
  started host video = true -> rasterOk video = true ->
  Num.truthy (Video.duration video) = false -> (50 < fuel)%nat ->
  exists blob : Blob,
    promise (createGifFromVideo host video fuel) = Fulfilled blob /\
    List.length (blobFrames blob) = 50%nat /\
    duration video = Num.ofZ 5 /\
    Num.Math_floor (Num.mul (Video.duration video) (Num.ofZ fps)) <> Num.IInt 50 /\
    (Num.Math_floor (Num.mul (Video.duration video) (Num.ofZ fps)) = Num.IInt 0 \/
     Num.Math_floor (Num.mul (Video.duration video) (Num.ofZ fps)) = Num.INaN).
Proof.
  intros Hst Hok Hfalsy Hfuel.
  assert (Hdur : duration video = Num.ofZ 5).
  { unfold duration, Num.or. rewrite Hfalsy. reflexivity. }
  assert (Htot : totalFrames video = Num.IInt 50).
  { unfold totalFrames. rewrite Hdur. vm_compute. reflexivity. }
  rewrite (run_completes host video 50 fuel) by (assumption || lia).
  cbv zeta. eexists. split; [reflexivity |]. cbn [blobFrames].
  split; [reflexivity |]. split; [exact Hdur |].
  destruct (Video.duration video) as [s | s | | s m e]; try discriminate Hfalsy.
  - destruct s; vm_compute; (split; [discriminate | left; reflexivity]).
  - vm_compute. split; [discriminate | right; reflexivity].
Qed.

(** What [rasterOk] says about the code's [height]: it is the floor of the
    scaled aspect ratio, lowered by one when odd, and so even. *)
Lemma height_even (video : Video.t) :
  rasterOk video = true ->
  exists h0 : Z,
    Num.Math_floor
      (Num.mul (Num.div (Num.ofZ (Z.of_N (Video.videoHeight video)))
                        (Num.ofZ (Z.of_N (Video.videoWidth video))))
               (Num.ofZ 400)) = Num.IInt h0 /\
    height video = Num.IInt (if Z.odd h0 then h0 - 1 else h0) /\
    Z.even (if Z.odd h0 then h0 - 1 else h0) = true.
Proof.
  unfold rasterOk, height, width.
  destruct (Num.Math_floor _) as [| s | h0]; try discriminate.
  unfold Num.rem, Num.strictNe. change (2 =? 0) with false. cbv iota.
  destruct (Z.rem h0 2 =? 0) eqn:Hrem; simpl negb; cbv iota; intros Hrange;
    exists h0; (split; [reflexivity |]); rewrite Zodd_rem, Hrem; simpl negb; cbv iota.
  - split; [reflexivity |]. rewrite Zeven_rem. exact Hrem.
  - unfold Num.minus1 in *.
    apply andb_prop in Hrange. destruct Hrange as [Hrange _].
    apply andb_prop in Hrange. destruct Hrange as [Hlo Hhi].
    assert (Hexact : Num.roundZ (h0 - 1) = h0 - 1).
    { apply NumFacts.roundZ_small_inv.
      assert (2 ^ 31 < 2 ^ 53) by (vm_compute; reflexivity). lia. }
    rewrite Hexact. split; [reflexivity |].
    rewrite Z.even_sub, Zeven_rem, Hrem. reflexivity.
Qed.

(** The code's [height], whenever it is a number at all, is even. *)
Lemma height_parity (video : Video.t) (z : Z) :
  height video = Num.IInt z -> Z.even z = true.
Proof.
  unfold height.
  destruct (Num.Math_floor _) as [| s | h0]; try discriminate.
  unfold Num.rem, Num.strictNe. change (2 =? 0) with false. cbv iota.
  destruct (Z.rem h0 2 =? 0) eqn:Hrem; simpl negb; cbv iota.
  - intros H. injection H as <-. rewrite Zeven_rem. exact Hrem.
  - unfold Num.minus1. intros H. injection H as <-.
    apply NumFacts.roundZ_even.
    rewrite Z.even_sub, Zeven_rem, Hrem. reflexivity.
Qed.

(** The height of a clip whose scaled aspect ratio floors to [h0]: [h0]
    lowered by one when odd, a raster [getImageData] accepts. *)
Lemma height_of_floor (video : Video.t) (h0 : Z) :
  Num.Math_floor
    (Num.mul (Num.div (Num.ofZ (Z.of_N (Video.videoHeight video)))
                      (Num.ofZ (Z.of_N (Video.videoWidth video))))
             (Num.ofZ 400)) = Num.IInt h0 ->
  2 <= h0 <= 2 ^ 31 - 1 ->
  height video = Num.IInt (if Z.odd h0 then h0 - 1 else h0) /\
  rasterOk video = true.
Proof.
  intros Hfloor Hrange. unfold rasterOk, height, width. rewrite Hfloor.
  unfold Num.rem, Num.strictNe. change (2 =? 0) with false. cbv iota.
  assert (Hpow : 2 ^ 31 < 2 ^ 53) by (vm_compute; reflexivity).
  rewrite Zodd_rem.
  destruct (Z.rem h0 2 =? 0) eqn:Hrem; simpl negb; cbv iota.
  - split; [reflexivity |].
    apply andb_true_intro; split; [apply andb_true_intro; split |]; lia.
  - unfold Num.minus1. rewrite NumFacts.roundZ_exact by lia.
    split; [reflexivity |].
    apply andb_true_intro; split; [apply andb_true_intro; split |]; lia.
Qed.

(** C4: every frame given to the encoder, and so every frame of the
    container, is 400 pixels wide, and its height is the even number
    [floor((videoHeight / videoWidth) * 400)], lowered by one when that floor
    is odd; the [height] the code computes for a clip is even whenever it is
    a number.  And the frames are there: on a clip that loads, whose scaled
    aspect ratio floors to some [h0] from 2 up and that has [n >= 1] frames
    to sample, the promise is fulfilled with [n] frames, each 400 wide and
    of that even height. *)
Theorem output_width_is_400_and_height_is_even
    (host : Host) (video : Video.t) (fuel : nat) :
  width = 400 /\
  (forall z : Z, height video = Num.IInt z -> Z.even z = true) /\
  Forall
    (fun f : Frame =>
       frameWidth f = 400 /\
       exists h0 : Z,
         Num.Math_floor
           (Num.mul (Num.div (Num.ofZ (Z.of_N (Video.videoHeight video)))
                             (Num.ofZ (Z.of_N (Video.videoWidth video))))
                    (Num.ofZ 400)) = Num.IInt h0 /\
         frameHeight f = Num.IInt (if Z.odd h0 then h0 - 1 else h0) /\
         Z.even (if Z.odd h0 then h0 - 1 else h0) = true)
    (written (createGifFromVideo host video fuel)) /\
  (forall h0 n : Z,
     started host video = true ->
     Num.Math_floor
       (Num.mul (Num.div (Num.ofZ (Z.of_N (Video.videoHeight video)))
                         (Num.ofZ (Z.of_N (Video.videoWidth video))))
                (Num.ofZ 400)) = Num.IInt h0 ->
     2 <= h0 <= 2 ^ 31 - 1 ->
     totalFrames video = Num.IInt n -> 1 <= n <= 2 ^ 53 -> (Z.to_nat n < fuel)%nat ->
     exists blob : Blob,
       promise (createGifFromVideo host video fuel) = Fulfilled blob /\
       Z.of_nat (List.length (blobFrames blob)) = n /\
       Z.even (if Z.odd h0 then h0 - 1 else h0) = true /\
       Forall
         (fun f : Frame =>
            frameWidth f = 400 /\
            frameHeight f = Num.IInt (if Z.odd h0 then h0 - 1 else h0))
         (blobFrames blob)).
Proof.
  split; [reflexivity |]. split; [exact (height_parity video) |]. split.
  - destruct (createGifFromVideo_written quantize applyPalette host video fuel)
      as [m [-> Hm]].
    destruct m as [| m]; [constructor |].
    assert (Hok : rasterOk video = true) by (apply Hm; discriminate).
    apply Forall_map, Forall_forall. intros j _.
    split; [reflexivity |]. exact (height_even video Hok).
  - intros h0 n Hst Hfloor Hh Htot Hn Hfuel.
    destruct (height_of_floor video h0 Hfloor Hh) as [Hheight Hok].
    rewrite (run_completes host video n fuel) by (assumption || lia).
    cbv zeta. eexists. split; [reflexivity |]. cbn [blobFrames].
    split; [rewrite length_map, length_seq; lia |].
    split; [exact (height_parity video _ Hheight) |].
    apply Forall_map, Forall_forall. intros j _.
    split; [reflexivity |]. exact Hheight.
Qed.

(** C5: the k-th frame given to the encoder carries a palette that
    [quantize] computed from that iteration's own pixel data with a target of
    256 entries, and an index buffer computed against that palette; with a
    quantizer that never returns more colours than asked for, the palette has
    at most 256 entries. *)
Theorem each_frame_has_its_own_palette
    (host : Host) (video : Video.t) (fuel k : nat) (f : Frame) :
  (forall data n, 0 <= n -> Z.of_nat (List.length (quantize data n)) <= n) ->
  nth_error (written (createGifFromVideo host video fuel)) k = Some f ->
  maxColors = 256 /\
  framePalette f = quantize (shown video (S k)) maxColors /\
  frameIndex f = applyPalette (shown video (S k)) (framePalette f) /\
  (paletteSize f <= 256)%nat.
Proof.
  intros Hbound Hnth.
  destruct (createGifFromVideo_written quantize applyPalette host video fuel)
    as [m [Hw _]].
  rewrite Hw, nth_error_map, nth_error_seq in Hnth.
  destruct (k <? m)%nat; [| discriminate].
  simpl in Hnth. injection Hnth as <-.
  repeat split. unfold paletteSize, sampled, writeFrame. cbn [framePalette].
  specialize (Hbound (shown video (S k)) maxColors). unfold maxColors in *. lia.
Qed.

(** C6: every frame given to the encoder carries the delay [1000 / fps],
    which is the double 100; and on a clip the conversion can sample, with
    [n >= 1] frames, the promise is fulfilled with [n] frames that all carry
    it. *)
Theorem every_frame_has_delay_1000_over_fps
    (host : Host) (video : Video.t) (fuel : nat) :
  Forall
    (fun f : Frame =>
       frameDelay f = Num.div (Num.ofZ 1000) (Num.ofZ fps) /\
       frameDelay f = Num.ofZ 100)
    (written (createGifFromVideo host video fuel)) /\
  (forall n : Z,
     started host video = true -> rasterOk video = true ->
     totalFrames video = Num.IInt n -> 1 <= n <= 2 ^ 53 -> (Z.to_nat n < fuel)%nat ->
     exists blob : Blob,
       promise (createGifFromVideo host video fuel) = Fulfilled blob /\
       Z.of_nat (List.length (blobFrames blob)) = n /\
       blobFrames blob <> [] /\
       Forall
         (fun f : Frame =>
            frameDelay f = Num.div (Num.ofZ 1000) (Num.ofZ 10) /\
            frameDelay f = Num.ofZ 100)
         (blobFrames blob)).
Proof.
  split.
  - destruct (createGifFromVideo_written quantize applyPalette host video fuel)
      as [m [-> _]].
    apply Forall_map, Forall_forall. intros j _.
    split; [reflexivity |]. vm_compute. reflexivity.
  - intros n Hst Hok Htot Hn Hfuel.
    rewrite (run_completes host video n fuel) by (assumption || lia).
    cbv zeta. eexists. split; [reflexivity |]. cbn [blobFrames].
    split; [rewrite length_map, length_seq; lia |]. split.
    + destruct (Z.to_nat n) as [| m] eqn:Hm; [lia | discriminate].
    + apply Forall_map, Forall_forall. intros j _.
      split; [reflexivity |]. vm_compute. reflexivity.
Qed.

Lemma frameLoop_rejections (video : Video.t) (fuel : nat) (st : Loop) (e : Exception) :
  promise (frameLoop video fuel st) = Rejected e ->
  e = TypeError \/ e = DOMException "IndexSizeError" \/ e = DOMException "SecurityError".
Proof.
  revert st. induction fuel as [| fuel IH]; intros st; simpl; [discriminate |].
  destruct (Num.lt (i st) (totalFrames video)); [| simpl; discriminate].
  destruct (getImageData _ _) as [e' | data] eqn:Hget; [| apply IH].
  simpl. intros H. injection H as <-.
  unfold getImageData in Hget.
  destruct (height video) as [| s | h].
  - injection Hget as <-. auto.
  - injection Hget as <-. auto.
  - destruct (_ || _); [injection Hget as <-; auto |].
    destruct (h =? 0); [injection Hget as <-; auto |].
    destruct (tainted _); [injection Hget as <-; auto | discriminate].
Qed.

(** The error of line 119 is only ever the answer to the load-error signal. *)
Lemma loadFailure_only_after_load_error (host : Host) (video : Video.t) (fuel : nat) :
  promise (createGifFromVideo host video fuel) = Rejected loadFailure ->
  gifencLoaded host = true /\ load crossOrigin video = LoadError.
Proof.
  unfold createGifFromVideo, onloadedmetadata.
  destruct (gifencLoaded host); simpl negb; cbv iota; [| simpl; discriminate].
  destruct (load crossOrigin video); try (simpl; discriminate).
  - destruct (context2d host); simpl negb; cbv iota; [| simpl; discriminate].
    intros H. apply frameLoop_rejections in H.
    destruct H as [H | [H | H]]; discriminate H.
  - intros _. split; reflexivity.
Qed.

(** C7, as amended: a clip that violates the cross-origin-readable
    precondition (it is neither same-origin nor approved by its server) does
    not survive the CORS-mode load that [crossOrigin = "anonymous"] asks for:
    the promise is rejected with the load-failure error of line 119, no pixel
    is read and no frame written.  What a pixel read throws on a loaded clip
    is passed to [reject] unchanged and is never that error. *)
Theorem unreadable_clip_is_reported_as_load_failure
    (host : Host) (video : Video.t) (fuel : nat) :
  gifencLoaded host = true -> crossOriginReadable video = false ->
  promise (createGifFromVideo host video fuel) = Rejected loadFailure /\
  written (createGifFromVideo host video fuel) = [] /\
  console (createGifFromVideo host video fuel) = [] /\
  forall (host' : Host) (video' : Video.t) (fuel' : nat) (e : Exception),
    load crossOrigin video' = Loadedmetadata ->
    promise (createGifFromVideo host' video' fuel') = Rejected e ->
    e <> loadFailure.
Proof.
  intros Hlib Hcross.
  assert (Hload : load crossOrigin video = LoadError).
  { unfold load, crossOrigin. rewrite Hcross. reflexivity. }
  unfold createGifFromVideo at 1 2 3. rewrite Hlib, Hload. simpl.
  repeat split.
  intros host' video' fuel' e Hloaded Hrej ->.
  apply loadFailure_only_after_load_error in Hrej.
  destruct Hrej as [_ Herr]. unfold load, crossOrigin in Herr. congruence.
Qed.

End Conversion.

(** ** Two runs *)

Section TwoRuns.

(** The quantizers of the two runs: gifenc may break ties differently from
    one run to the next. *)
Variable quantize1 quantize2 : Uint8ClampedArray -> Z -> Palette.
Variable applyPalette1 applyPalette2 : Uint8ClampedArray -> Palette -> Uint8Array.

(** Whether a pixel read succeeds depends on the raster alone. *)
Lemma getImageData_raster (video : Video.t) (k : nat) :
  rasterOk video = false ->
  exists e, getImageData (height video) (canvasAt video (S k)) = inl e.
Proof.
  intros Hbad.
  destruct (getImageData (height video) (canvasAt video (S k))) as [e | data] eqn:Hget;
    [exists e; reflexivity |].
  apply getImageData_inr in Hget. destruct Hget as [_ Hok]. congruence.
Qed.

(** How far the loop gets depends on the metadata alone: not on the pixels,
    the seeks or the quantizer. *)
Lemma frameLoop_count (a b : Video.t) :
  height a = height b -> totalFrames a = totalFrames b ->
  forall (fuel k : nat) (g1 g2 : list Frame),
    List.length g1 = List.length g2 ->
    List.length (written (frameLoop quantize1 applyPalette1 a fuel (stateAt a k g1))) =
    List.length (written (frameLoop quantize2 applyPalette2 b fuel (stateAt b k g2))) /\
    forall blob : Blob,
      promise (frameLoop quantize1 applyPalette1 a fuel (stateAt a k g1)) = Fulfilled blob ->
      exists blob' : Blob,
        promise (frameLoop quantize2 applyPalette2 b fuel (stateAt b k g2)) = Fulfilled blob' /\
        List.length (blobFrames blob) = List.length (blobFrames blob').
Proof.
  intros Hheight Htotal.
  assert (Hraster : rasterOk a = rasterOk b) by (unfold rasterOk; rewrite Hheight; reflexivity).
  induction fuel as [| fuel IH]; intros k g1 g2 Hlen.
  - simpl. split; [exact Hlen | discriminate].
  - rewrite !frameLoop_step, Htotal.
    destruct (Num.lt (counter k) (totalFrames b)).
    + destruct (rasterOk a) eqn:Hok.
      * rewrite !getImageData_ok by congruence.
        apply IH. rewrite !length_app. simpl. lia.
      * destruct (getImageData_raster a k Hok) as [e1 ->].
        destruct (getImageData_raster b k) as [e2 ->]; [congruence |].
        simpl. split; [exact Hlen | discriminate].
    + simpl. split; [exact Hlen |].
      intros blob H. injection H as <-. eexists. split; [reflexivity | exact Hlen].
Qed.


End TwoRuns.

(** *** The conversion on the sample clip *)

Module SampleRuns.
Import Sample.

Abbreviation run := (createGifFromVideo quantize applyPalette).

(** The specification's scenario: two seconds of 320x180 video give 20
    frames of 400x224. *)
Example two_second_clip :
  exists blob : Blob,
    promise (run host (clip Loadedmetadata (Num.ofZ 2) true seeked) 21) = Fulfilled blob /\
    List.length (blobFrames blob) = 20%nat /\
    Forall (fun f => frameWidth f = 400 /\ frameHeight f = Num.IInt 224) (blobFrames blob).
Proof.
  eexists. split; [vm_compute; reflexivity |]. split; [reflexivity |].
  repeat constructor.
Qed.

Lemma quantize_bound (data : Uint8ClampedArray) (n : Z) :
  0 <= n -> Z.of_nat (List.length (quantize data n)) <= n.
Proof.
  intros Hn. unfold quantize.
  assert (H := firstn_le_length (Z.to_nat n) (colours data)). lia.
Qed.

Lemma frame_count_witness :
  exists blob : Blob,
    promise (run host (clip Loadedmetadata (Num.ofZ 2) true seeked) 21) = Fulfilled blob /\
    blobFrames blob = written (run host (clip Loadedmetadata (Num.ofZ 2) true seeked) 21) /\
    Z.of_nat (List.length (blobFrames blob)) = 20 /\
    totalFrames (clip Loadedmetadata (Num.ofZ 2) true seeked) = Num.IInt 20 /\
    fps = 10.
Proof.
  apply (frame_count_is_floor_of_duration_times_fps quantize applyPalette host
           (clip Loadedmetadata (Num.ofZ 2) true seeked) 20 21);
    try (vm_compute; reflexivity); try (split; vm_compute; discriminate).
Defined.

Lemma seek_timeout_witness :
  exists blob : Blob,
    promise (run host (clip Loadedmetadata (Num.ofZ 2) true seeked) 21) = Fulfilled blob /\
    List.length (blobFrames blob) = Z.to_nat 20 /\
    nth_error (blobFrames blob) 1 =
      Some (writeFrame quantize applyPalette (clip Loadedmetadata (Num.ofZ 2) true seeked)
              (shown (clip Loadedmetadata (Num.ofZ 2) true seeked) 1)) /\
    console (run host (clip Loadedmetadata (Num.ofZ 2) true seeked) 21) = [].
Proof.
  apply (seek_timeout_still_appends_a_frame quantize applyPalette host
           (clip Loadedmetadata (Num.ofZ 2) true seeked) 20 21 1);
    try (vm_compute; reflexivity); try (split; vm_compute; discriminate).
Defined.

Lemma load_error_witness :
  promise (run host (clip LoadError (Num.ofZ 2) true seeked) 21) = Rejected loadFailure /\
  written (run host (clip LoadError (Num.ofZ 2) true seeked) 21) = [] /\
  forall blob : Blob,
    promise (run host (clip LoadError (Num.ofZ 2) true seeked) 21) <> Fulfilled blob.
Proof.
  apply (load_error_rejects_without_container quantize applyPalette host
           (clip LoadError (Num.ofZ 2) true seeked) 21); reflexivity.
Defined.

Lemma own_palette_witness :
  maxColors = 256 /\
  framePalette (sampled quantize applyPalette (clip Loadedmetadata (Num.ofZ 2) true seeked) 4) =
    quantize (shown (clip Loadedmetadata (Num.ofZ 2) true seeked) 5) maxColors /\
  frameIndex (sampled quantize applyPalette (clip Loadedmetadata (Num.ofZ 2) true seeked) 4) =
    applyPalette (shown (clip Loadedmetadata (Num.ofZ 2) true seeked) 5)
      (framePalette (sampled quantize applyPalette (clip Loadedmetadata (Num.ofZ 2) true seeked) 4)) /\
  (paletteSize (sampled quantize applyPalette (clip Loadedmetadata (Num.ofZ 2) true seeked) 4)
     <= 256)%nat.
Proof.
  apply (each_frame_has_its_own_palette quantize applyPalette host
           (clip Loadedmetadata (Num.ofZ 2) true seeked) 21 4).
  - exact quantize_bound.
  - vm_compute. reflexivity.
Defined.

(** C7, counterexample: a clip on a server that does not approve violates
    the cross-origin-readable precondition, and the run ends in the
    load-failure error, not in a [SecurityError]. *)
Lemma cross_origin_clip_rejects_with_load_failure :
  crossOriginReadable (clip Loadedmetadata (Num.ofZ 2) false seeked) = false /\
  promise (run host (clip Loadedmetadata (Num.ofZ 2) false seeked) 21) =
    Rejected (Error "Video load failed") /\
  promise (run host (clip Loadedmetadata (Num.ofZ 2) false seeked) 21) <>
    Rejected (DOMException "SecurityError").
Proof.
  repeat split. vm_compute. discriminate.
Qed.

Lemma unreadable_clip_witness :
  promise (run host (clip Loadedmetadata (Num.ofZ 2) false seeked) 21) =
    Rejected loadFailure /\
  written (run host (clip Loadedmetadata (Num.ofZ 2) false seeked) 21) = [] /\
  console (run host (clip Loadedmetadata (Num.ofZ 2) false seeked) 21) = [] /\
  forall (host' : Host) (video' : Video.t) (fuel' : nat) (e : Exception),
    load crossOrigin video' = Loadedmetadata ->
    promise (createGifFromVideo quantize applyPalette host' video' fuel') = Rejected e ->
    e <> loadFailure.
Proof.
  apply (unreadable_clip_is_reported_as_load_failure quantize applyPalette host
           (clip Loadedmetadata (Num.ofZ 2) false seeked) 21); reflexivity.
Defined.

Lemma even_height_witness :
  exists blob : Blob,
    promise (run host (clip Loadedmetadata (Num.ofZ 2) true seeked) 21) = Fulfilled blob /\
    Z.of_nat (List.length (blobFrames blob)) = 20 /\
    Z.even 224 = true /\
    Forall (fun f : Frame => frameWidth f = 400 /\ frameHeight f = Num.IInt 224)
      (blobFrames blob).
Proof.
  destruct (output_width_is_400_and_height_is_even quantize applyPalette host
              (clip Loadedmetadata (Num.ofZ 2) true seeked) 21) as (_ & _ & _ & H).
  apply (H 225 20); try (vm_compute; reflexivity);
    try (split; vm_compute; discriminate).
Defined.

Lemma delay_witness :
  exists blob : Blob,
    promise (run host (clip Loadedmetadata (Num.ofZ 2) true seeked) 21) = Fulfilled blob /\
    Z.of_nat (List.length (blobFrames blob)) = 20 /\
    blobFrames blob <> [] /\
    Forall
      (fun f : Frame =>
         frameDelay f = Num.div (Num.ofZ 1000) (Num.ofZ 10) /\
         frameDelay f = Num.ofZ 100)
      (blobFrames blob).
Proof.
  destruct (every_frame_has_delay_1000_over_fps quantize applyPalette host
              (clip Loadedmetadata (Num.ofZ 2) true seeked) 21) as (_ & H).
  apply (H 20); try (vm_compute; reflexivity);
    try (split; vm_compute; discriminate).
Defined.



Lemma falsy_duration_witness :
  exists blob : Blob,
    promise (run host (clip Loadedmetadata (Num.ofZ 0) true seeked) 51) = Fulfilled blob /\
    List.length (blobFrames blob) = 50%nat /\
    duration (clip Loadedmetadata (Num.ofZ 0) true seeked) = Num.ofZ 5 /\
    Num.Math_floor (Num.mul (Video.duration (clip Loadedmetadata (Num.ofZ 0) true seeked))
                            (Num.ofZ fps)) <> Num.IInt 50 /\
    (Num.Math_floor (Num.mul (Video.duration (clip Loadedmetadata (Num.ofZ 0) true seeked))
                             (Num.ofZ fps)) = Num.IInt 0 \/
     Num.Math_floor (Num.mul (Video.duration (clip Loadedmetadata (Num.ofZ 0) true seeked))
                             (Num.ofZ fps)) = Num.INaN).
Proof.
  apply (falsy_duration_yields_fifty_frames quantize applyPalette host
           (clip Loadedmetadata (Num.ofZ 0) true seeked) 51);
    vm_compute; reflexivity.
Defined.

End SampleRuns.

(** ** pollForVideo *)

Module PollFacts.
Import Poll.

(** Past the ceiling the loop throws instead of asking again. *)
Lemma loop_ceiling (service : nat -> Turn) (startTime : Z) (fuel k : nat)
    (now : Z) (op : Operation) :
  done op = false -> MAX_WAIT_TIME < now - startTime ->
  loop service startTime (S fuel) k now op =
  Some {| outcome := inl timedOut; polls := k; finished := now |}.
Proof.
  intros Hdone Hlate. simpl. rewrite Hdone.
  destruct (Z.ltb_spec MAX_WAIT_TIME (now - startTime)); [reflexivity | lia].
Qed.

(** Every turn takes at least 5000 ms, so the k-th evaluation of the loop
    condition is at least [5000 * k] ms after the start: at most 37 requests
    are sent, and 38 evaluations end the loop. *)
Lemma loop_terminates (service : nat -> Turn) (startTime : Z) :
  forall (fuel k : nat) (now : Z) (op : Operation),
    (k <= 37)%nat -> (38 <= k + fuel)%nat ->
    5000 * Z.of_nat k <= now - startTime ->
    exists r : Result,
      loop service startTime fuel k now op = Some r /\
      (polls r <= 37)%nat /\
      (forall op', outcome r = inr op' -> done op' = true) /\
      (forall e, outcome r = inl e ->
         e = timedOut \/ exists j, (j < polls r)%nat /\ reply (service j) = inl e).
Proof.
  induction fuel as [| fuel IH]; intros k now op Hk Hfuel Hnow; [lia |].
  simpl. destruct (done op) eqn:Hdone.
  - eexists. split; [reflexivity |]. cbn [polls outcome].
    repeat split; [exact Hk | | discriminate].
    intros op' H. injection H as <-. exact Hdone.
  - destruct (Z.ltb_spec MAX_WAIT_TIME (now - startTime)) as [Hlate | Hearly].
    + eexists. split; [reflexivity |]. cbn [polls outcome].
      repeat split; [exact Hk | discriminate |].
      intros e H. injection H as <-. left. reflexivity.
    + unfold MAX_WAIT_TIME in Hearly.
      destruct (reply (service k)) as [e | op'] eqn:Hreply.
      * eexists. split; [reflexivity |]. cbn [polls outcome].
        repeat split; [lia | discriminate |].
        intros e' H. injection H as <-. right. exists k. split; [lia | exact Hreply].
      * destruct (IH (S k) (now + 5000 + Z.of_N (overshoot (service k))
                            + Z.of_N (latency (service k))) op')
          as [r Hr]; [lia | lia | lia |].
        exists r. exact Hr.
Qed.

Lemma checkTime_lower (service : nat -> Turn) (now : Z) (k : nat) :
  now + 5000 * Z.of_nat k <= checkTime service now k.
Proof.
  induction k as [| k IH]; [simpl; lia |].
  cbn [checkTime]. lia.
Qed.

Lemma checkTime_mono (service : nat -> Turn) (now : Z) (j k : nat) :
  (j <= k)%nat -> checkTime service now j <= checkTime service now k.
Proof.
  induction 1 as [| k _ IH]; [lia |]. cbn [checkTime]. lia.
Qed.

(** The loop from its k-th evaluation on, when the evaluations before it
    were within the ceiling and looked at operations that were not done. *)
Lemma loop_trace (service : nat -> Turn) (start : Z) (operation : Operation) :
  forall (fuel k : nat) (op : Operation),
    (38 <= k + fuel)%nat ->
    opAt service operation k = Some op ->
    (forall j, (j < k)%nat ->
       checkTime service start j - start <= 180000 /\
       exists opj, opAt service operation j = Some opj /\ done opj = false) ->
    exists r : Result,
      loop service start fuel k (checkTime service start k) op = Some r /\
      finished r = checkTime service start (polls r) /\
      (forall j, (j < polls r)%nat ->
         checkTime service start j - start <= 180000 /\
         exists opj, opAt service operation j = Some opj /\ done opj = false) /\
      (forall op', outcome r = inr op' ->
         done op' = true /\ opAt service operation (polls r) = Some op') /\
      (forall e, outcome r = inl e ->
         (e = timedOut /\ 180000 < finished r - start /\
          exists op', opAt service operation (polls r) = Some op' /\ done op' = false) \/
         exists j, polls r = S j /\ reply (service j) = inl e).
Proof.
  induction fuel as [| fuel IH]; intros k op Hfuel Hop Hbefore.
  - (* 38 evaluations have been made: the 38th is past the ceiling *)
    exfalso. destruct k as [| k]; [lia |].
    destruct (Hbefore k) as [Hk _]; [lia |].
    assert (H := checkTime_lower service start k). lia.
  - cbn [loop]. destruct (done op) eqn:Hdone.
    + eexists. split; [reflexivity |]. cbn [polls outcome finished].
      split; [reflexivity |]. split; [exact Hbefore |]. split; [| discriminate].
      intros op' H. injection H as <-. split; assumption.
    + destruct (Z.ltb_spec MAX_WAIT_TIME (checkTime service start k - start))
        as [Hlate | Hearly]; unfold MAX_WAIT_TIME in *.
      * eexists. split; [reflexivity |]. cbn [polls outcome finished].
        split; [reflexivity |]. split; [exact Hbefore |]. split; [discriminate |].
        intros e H. injection H as <-. left.
        split; [reflexivity |]. split; [exact Hlate |]. exists op. split; assumption.
      * assert (Hnext : forall j, (j < S k)%nat ->
          checkTime service start j - start <= 180000 /\
          exists opj, opAt service operation j = Some opj /\ done opj = false).
        { intros j Hj. destruct (Nat.eq_dec j k) as [-> | Hne].
          - split; [exact Hearly |]. exists op. split; assumption.
          - apply Hbefore. lia. }
        destruct (reply (service k)) as [e | op'] eqn:Hreply.
        -- eexists. split; [reflexivity |]. cbn [polls outcome finished].
           split; [cbn [checkTime]; lia |]. split; [exact Hnext |].
           split; [discriminate |].
           intros e' H. injection H as <-. right. exists k. split; [reflexivity | exact Hreply].
        -- replace (checkTime service start k + 5000 + Z.of_N (overshoot (service k))
                    + Z.of_N (latency (service k)))
             with (checkTime service start (S k)) by reflexivity.
           apply IH; [lia | cbn [opAt]; rewrite Hreply; reflexivity | exact Hnext].
Qed.


(** On the sample service the third answer is done: three requests, 15759 ms. *)
Example sample_poll :
  pollForVideo None Sample.service 1000
    {| done := false; error := None; uri := None |} 38 =
  Some {| outcome := inr {| done := true; error := None; uri := None |};
          polls := 3;
          finished := 16759 |}.
Proof. vm_compute. reflexivity. Qed.

(** A service that never finishes is given up on at the 38th evaluation,
    after 37 requests. *)
Example sample_poll_timeout :
  pollForVideo None
    (fun _ => {| overshoot := 0; latency := 0;
                 reply := inr {| done := false; error := None; uri := None |} |})
    0 {| done := false; error := None; uri := None |} 38 =
  Some {| outcome := inl timedOut; polls := 37; finished := 185000 |}.
Proof. vm_compute. reflexivity. Qed.

(** The ceiling is looked at between requests only: a done answer that takes
    ten hours to arrive is returned, ten hours late. *)
Example late_answer_is_returned :
  pollForVideo None
    (fun _ => {| overshoot := 0; latency := 36000000;
                 reply := inr {| done := true; error := None; uri := None |} |})
    0 {| done := false; error := None; uri := None |} 38 =
  Some {| outcome := inr {| done := true; error := None; uri := None |};
          polls := 1;
          finished := 36005000 |}.
Proof. vm_compute. reflexivity. Qed.

End PollFacts.

(** ** cleanBase64 *)

Module UtilsFacts.
Import Str Utils.

Lemma stripPrefix_app (p s rest : JSString) :
  stripPrefix p s = Some rest -> s = p ++ rest.
Proof.
  revert s. induction p as [| a p IH]; intros s; simpl.
  - intros H. injection H as <-. reflexivity.
  - destruct s as [| b s]; [discriminate |].
    destruct (N.eqb_spec a b) as [-> | _]; [| discriminate].
    intros H. rewrite (IH s H). reflexivity.
Qed.

Lemma stripPrefix_here (p rest : JSString) : stripPrefix p (p ++ rest) = Some rest.
Proof.
  induction p as [| a p IH]; simpl; [reflexivity |].
  rewrite N.eqb_refl. exact IH.
Qed.

(** What is cut off ends with the comma, and what is left has no comma on
    its first line. *)
Lemma afterLastComma_split (s rest : JSString) :
  afterLastComma s = Some rest ->
  (exists head, s = head ++ comma :: rest /\ forallb (fun u => negb (isLineTerminator u)) head = true) /\
  afterLastComma rest = None.
Proof.
  revert rest. induction s as [| u s IH]; intros rest; simpl; [discriminate |].
  destruct (isLineTerminator u) eqn:Hlt; [discriminate |].
  destruct (afterLastComma s) as [r |] eqn:Hs.
  - intros H. injection H as <-.
    destruct (IH r eq_refl) as [[head [-> Hhead]] Hnone].
    split; [| exact Hnone].
    exists (u :: head). simpl. rewrite Hlt, Hhead. split; reflexivity.
  - destruct (N.eqb_spec u comma) as [-> | _]; [| discriminate].
    intros H. injection H as <-.
    split; [| exact Hs]. exists []. split; reflexivity.
Qed.

Lemma afterLastComma_tail (u : N) (s : JSString) :
  afterLastComma (u :: s) = None -> isLineTerminator u = false ->
  afterLastComma s = None.
Proof.
  simpl. intros H Hlt. rewrite Hlt in H.
  destruct (afterLastComma s); [discriminate | reflexivity].
Qed.

Lemma afterLastComma_without_comma (s : JSString) :
  existsb (N.eqb comma) s = false -> afterLastComma s = None.
Proof.
  induction s as [| u s IH]; [reflexivity |].
  cbn [existsb]. intros H. apply orb_false_elim in H. destruct H as [Hu Hs].
  cbn [afterLastComma]. rewrite (IH Hs). rewrite N.eqb_sym in Hu. rewrite Hu.
  destruct (isLineTerminator u); reflexivity.
Qed.

Lemma afterLastComma_header (header payload : JSString) :
  forallb (fun u => negb (isLineTerminator u)) header = true ->
  afterLastComma payload = None ->
  afterLastComma (header ++ comma :: payload) = Some payload.
Proof.
  intros Hheader Hpayload.
  induction header as [| u header IH]; simpl.
  - rewrite Hpayload. reflexivity.
  - simpl in Hheader. apply andb_prop in Hheader. destruct Hheader as [Hu Hheader].
    apply negb_true_iff in Hu. rewrite Hu, (IH Hheader). reflexivity.
Qed.

(** X1: [cleanBase64] only ever cuts a prefix off its argument, and a string
    that does not start with [data:] comes back unchanged. *)
Theorem cleanBase64_keeps_a_suffix (data : JSString) :
  exists head : JSString,
    data = head ++ cleanBase64 data /\
    (startsWith (units "data:") data = false -> head = []) /\
    (head <> [] -> startsWith (units "data:") head = true /\ last head 0%N = comma).
Proof.
  unfold cleanBase64, startsWith.
  destruct (stripPrefix (units "data:") data) as [rest |] eqn:Hprefix.
  - destruct (afterLastComma rest) as [payload |] eqn:Hcomma.
    + apply stripPrefix_app in Hprefix.
      destruct (afterLastComma_split rest payload Hcomma) as [[head [-> _]] _].
      exists (units "data:" ++ head ++ [comma]).
      split; [| split; [discriminate |]].
      * rewrite Hprefix, <- !app_assoc. reflexivity.
      * intros _. split.
        -- rewrite stripPrefix_here. reflexivity.
        -- rewrite app_assoc. apply last_last.
    + exists []. repeat split; congruence.
  - exists []. repeat split; congruence.
Qed.

(** X2: a data URL -- [data:], a header on one line, a comma, and a payload
    without commas, as base64 is -- is reduced to its payload. *)
Theorem cleanBase64_strips_the_data_url_header (header payload : JSString) :
  forallb (fun u => negb (isLineTerminator u)) header = true ->
  existsb (N.eqb comma) payload = false ->
  cleanBase64 (units "data:" ++ header ++ comma :: payload) = payload.
Proof.
  intros Hheader Hpayload. unfold cleanBase64.
  rewrite stripPrefix_here.
  rewrite afterLastComma_header; auto using afterLastComma_without_comma.
Qed.

(** X3: cleaning twice is cleaning once: what [cleanBase64] returns is never
    cut again. *)
Theorem cleanBase64_idempotent (data : JSString) :
  cleanBase64 (cleanBase64 data) = cleanBase64 data.
Proof.
  unfold cleanBase64 at 2 3.
  destruct (stripPrefix (units "data:") data) as [rest |] eqn:Hprefix.
  - destruct (afterLastComma rest) as [payload |] eqn:Hcomma.
    + apply afterLastComma_split in Hcomma. destruct Hcomma as [_ Hnone].
      unfold cleanBase64.
      destruct (stripPrefix (units "data:") payload) as [rest' |] eqn:Hprefix';
        [| reflexivity].
      apply stripPrefix_app in Hprefix'. subst payload.
      do 5 (apply afterLastComma_tail in Hnone; [| reflexivity]).
      rewrite Hnone. reflexivity.
    + unfold cleanBase64. rewrite Hprefix, Hcomma. reflexivity.
  - unfold cleanBase64. rewrite Hprefix. reflexivity.
Qed.

Lemma strips_header_witness :
  cleanBase64 (units "data:" ++ units "image/png;base64" ++ comma :: units "iVBORw0KGgo=") =
  units "iVBORw0KGgo=".
Proof.
  apply (cleanBase64_strips_the_data_url_header (units "image/png;base64") (units "iVBORw0KGgo="));
    vm_compute; reflexivity.
Defined.

End UtilsFacts.

(** ** Strings *)

Module StrFacts.
Import Str.

Definition sep : JSString := units ";base64,".

(** An occurrence of [;base64,] cannot begin inside [a] and run into a
    following [;base64,]: the separator has its only semicolon in front. *)
Lemma startsWith_sep_straddle (a rest : JSString) :
  a <> [] -> startsWith sep (a ++ sep ++ rest) = true -> startsWith sep a = true.
Proof.
  intros Hne H. unfold startsWith in *.
  destruct (stripPrefix sep (a ++ sep ++ rest)) as [r |] eqn:E; [| discriminate].
  apply UtilsFacts.stripPrefix_app in E. clear H.
  destruct a as [| a0 a]; [congruence |]. clear Hne.
  change sep with [59; 98; 97; 115; 101; 54; 52; 44]%N in *.
  do 7 (destruct a as [| ? a]; [cbn in E; congruence |]).
  cbn in E. injection E as -> -> -> -> -> -> -> -> _.
  cbn. reflexivity.
Qed.

Lemma includes_cons (p s : JSString) (u : N) :
  includes p (u :: s) = false -> startsWith p (u :: s) = false /\ includes p s = false.
Proof.
  cbn [includes]. intros H. apply orb_false_elim in H. exact H.
Qed.

(** Without an occurrence of the separator there is one piece. *)
Lemma splitFrom_without (s piece : JSString) :
  includes sep s = false -> splitFrom sep s O piece = [rev piece ++ s].
Proof.
  revert piece. induction s as [| u s IH]; intros piece H.
  - simpl. rewrite app_nil_r. reflexivity.
  - apply includes_cons in H. destruct H as [Hhere Hlater].
    cbn [splitFrom]. rewrite Hhere, (IH _ Hlater). simpl.
    rewrite <- app_assoc. reflexivity.
Qed.

(** Up to the first occurrence of the separator. *)
Lemma splitFrom_first (a rest piece : JSString) :
  includes sep a = false ->
  splitFrom sep (a ++ sep ++ rest) O piece =
  (rev piece ++ a) :: splitFrom sep rest O [].
Proof.
  revert piece. induction a as [| u a IH]; intros piece H.
  - rewrite app_nil_r. reflexivity.
  - apply includes_cons in H. destruct H as [Hhere Hlater].
    assert (Hno : startsWith sep ((u :: a) ++ sep ++ rest) = false).
    { destruct (startsWith sep ((u :: a) ++ sep ++ rest)) eqn:E; [| reflexivity].
      apply startsWith_sep_straddle in E; [congruence | discriminate]. }
    change ((u :: a) ++ sep ++ rest) with (u :: (a ++ sep ++ rest)) in *.
    cbn [splitFrom]. rewrite Hno, (IH _ Hlater). simpl.
    rewrite <- app_assoc. reflexivity.
Qed.

Lemma removeFirst_here (p rest : JSString) : removeFirst p (p ++ rest) = rest.
Proof.
  destruct (p ++ rest) eqn:E; simpl; rewrite <- E, UtilsFacts.stripPrefix_here;
    reflexivity.
Qed.

Lemma trimStart_nil (s : JSString) :
  trimStart s = [] <-> forallb isWhiteSpace s = true.
Proof.
  induction s as [| u s IH]; simpl; [tauto |].
  destruct (isWhiteSpace u); simpl; [exact IH |].
  split; discriminate.
Qed.

Lemma trimStart_head (s t : JSString) (u : N) :
  trimStart s = u :: t -> isWhiteSpace u = false.
Proof.
  induction s as [| v s IH]; simpl; [discriminate |].
  destruct (isWhiteSpace v) eqn:Hv; [exact IH |].
  intros H. injection H as <- _. exact Hv.
Qed.

(** [trim] leaves nothing exactly when every unit is white space. *)
Lemma trim_nil (s : JSString) :
  trim s = [] <-> forallb isWhiteSpace s = true.
Proof.
  unfold trim. split.
  - intros H. apply (f_equal (@rev N)) in H. rewrite rev_involutive in H.
    simpl in H. apply trimStart_nil in H. apply trimStart_nil.
    destruct (trimStart s) as [| u t] eqn:E; [reflexivity |].
    apply trimStart_head in E.
    rewrite forallb_forall in H. specialize (H u).
    rewrite E in H. 
    assert (Hin : In u (rev (u :: t))) by (apply -> in_rev; left; reflexivity).
    specialize (H Hin). discriminate.
  - intros H. apply trimStart_nil in H. rewrite H. reflexivity.
Qed.

End StrFacts.

(** ** generateTextImage *)

Module ServiceFacts.
Import Str Service StrFacts.

(** X4: a base64 data URL given as reference image is taken apart into its
    MIME type and its payload, whatever parameters the MIME type carries, as
    long as neither contains the marker [;base64,] itself. *)
Theorem referencePart_of_a_data_url (mime payload : JSString) :
  includes sep mime = false -> includes sep payload = false ->
  referencePart (units "data:" ++ mime ++ sep ++ payload) =
  {| data := Some payload; mimeType := Some mime |}.
Proof.
  intros Hmime Hpayload. unfold referencePart, split. fold sep.
  assert (Hhead : includes sep (units "data:" ++ mime) = false).
  { cbn. unfold startsWith. cbn.
    repeat (apply includes_cons in Hmime || idtac).
    change (includes sep mime = false). exact Hmime. }
  rewrite app_assoc, splitFrom_first by exact Hhead.
  rewrite splitFrom_without by exact Hpayload.
  cbn [nth nth_error rev app]. rewrite removeFirst_here. reflexivity.
Qed.

(** X5: a reference image without the marker [;base64,] -- a URL-encoded
    data URL, a plain URL -- leaves the data undefined, and its whole text,
    less a first [data:], is sent as the MIME type. *)
Theorem referencePart_without_marker (referenceImage : JSString) :
  includes sep referenceImage = false ->
  referencePart referenceImage =
  {| data := None;
     mimeType := Some (removeFirst (units "data:") referenceImage) |}.
Proof.
  intros H. unfold referencePart, split. fold sep.
  rewrite splitFrom_without by exact H. reflexivity.
Qed.

(** X6: [generateTextImage] resolves with the first part of the answer that
    carries inline data: its data, and its MIME type, or [image/png] when the
    part's MIME type is missing or empty.  It fails with the exception of the
    client's constructor, before any request; with the request's own
    exception; or with "No image generated" when no part of the answer
    carries inline data. *)
Theorem generateTextImage_takes_the_first_image
    (getAI : option Exception)
    (generateContent : ImageRequest -> Exception + option (list Part))
    (text style : JSString) (typographyPrompt referenceImage : option JSString) :
  match generateTextImage getAI generateContent text style typographyPrompt referenceImage with
  | inl e =>
      getAI = Some e \/
      (getAI = None /\
       generateContent (imageRequest text style typographyPrompt referenceImage) = inl e) \/
      (getAI = None /\ e = Error "No image generated" /\
       exists parts,
         generateContent (imageRequest text style typographyPrompt referenceImage) = inr parts /\
         Forall (fun p => inlineData p = None)
           (match parts with Some ps => ps | None => [] end))
  | inr image =>
      getAI = None /\
      exists before part after inline,
        generateContent (imageRequest text style typographyPrompt referenceImage) =
          inr (Some (before ++ part :: after)) /\
        Forall (fun p => inlineData p = None) before /\
        inlineData part = Some inline /\
        imageData image = data inline /\
        (mimeType inline = None \/ mimeType inline = Some [] ->
         imageMimeType image = units "image/png") /\
        (forall m, mimeType inline = Some m -> m <> [] -> imageMimeType image = m)
  end.
Proof.
  unfold generateTextImage.
  destruct getAI as [e0 |]; [left; reflexivity |].
  destruct (generateContent _) as [e | parts]; [right; left; split; reflexivity |].
  assert (Hscan : forall ps,
    match firstImage ps with
    | inl e => e = Error "No image generated" /\ Forall (fun p => inlineData p = None) ps
    | inr image =>
        exists before part after inline,
          ps = before ++ part :: after /\
          Forall (fun p => inlineData p = None) before /\
          inlineData part = Some inline /\
          imageData image = data inline /\
          (mimeType inline = None \/ mimeType inline = Some [] ->
           imageMimeType image = units "image/png") /\
          (forall m, mimeType inline = Some m -> m <> [] -> imageMimeType image = m)
    end).
  { induction ps as [| p ps IH]; simpl.
    - split; [reflexivity | constructor].
    - destruct (inlineData p) as [inline |] eqn:Hp.
      + exists [], p, ps, inline. cbn [app imageData imageMimeType].
        split; [reflexivity |]. split; [constructor |]. split; [exact Hp |].
        split; [reflexivity |]. split.
        * intros [-> | ->]; reflexivity.
        * intros m ->. destruct m; [congruence | reflexivity].
      + destruct (firstImage ps) as [e | image].
        * destruct IH as [-> Hall]. split; [reflexivity | constructor; assumption].
        * destruct IH as (before & part & after & inline & -> & Hb & Hin & Hrest).
          exists (p :: before), part, after, inline.
          split; [reflexivity |]. split; [constructor; assumption |].
          split; [exact Hin | exact Hrest]. }
  destruct parts as [ps |].
  - specialize (Hscan ps). destruct (firstImage ps) as [e | image].
    + right. right. destruct Hscan as [-> Hall]. split; [reflexivity |].
      split; [reflexivity |].
      exists (Some ps). split; [reflexivity | exact Hall].
    + split; [reflexivity |].
      destruct Hscan as (before & part & after & inline & -> & H).
      exists before, part, after, inline. split; [reflexivity | exact H].
  - simpl. right. right. split; [reflexivity |]. split; [reflexivity |].
    exists None. split; [reflexivity | constructor].
Qed.

(** X7: the caller's typography prompt is used, verbatim, exactly when it
    holds a unit that is not white space; a missing, empty or blank prompt
    gives the stock instruction. *)
Theorem typoInstruction_ignores_blank_prompts (typographyPrompt : option JSString) :
  typoInstruction typographyPrompt =
  match typographyPrompt with
  | Some prompt =>
      if existsb (fun u => negb (isWhiteSpace u)) prompt
      then CustomTypography prompt
      else StockTypography
  | None => StockTypography
  end.
Proof.
  destruct typographyPrompt as [prompt |]; [| reflexivity].
  unfold typoInstruction.
  destruct (existsb (fun u => negb (isWhiteSpace u)) prompt) eqn:Hex.
  - assert (Hne : trim prompt <> []).
    { intros H. apply trim_nil in H. rewrite forallb_forall in H.
      apply existsb_exists in Hex. destruct Hex as [u [Hin Hu]].
      rewrite (H u Hin) in Hu. discriminate. }
    destruct prompt as [| u prompt]; [discriminate |].
    destruct (trim (u :: prompt)); [congruence | reflexivity].
  - assert (Hnil : trim prompt = []).
    { apply trim_nil. apply forallb_forall. intros u Hin.
      destruct (isWhiteSpace u) eqn:Hu; [reflexivity |].
      assert (existsb (fun u => negb (isWhiteSpace u)) prompt = true)
        by (apply existsb_exists; exists u; rewrite Hu; auto).
      congruence. }
    rewrite Hnil. simpl. rewrite andb_false_r. reflexivity.
Qed.

Lemma data_url_witness :
  referencePart (units "data:" ++ units "image/png;charset=binary" ++ sep ++ units "iVBORw0KGgo=") =
  {| data := Some (units "iVBORw0KGgo="); mimeType := Some (units "image/png;charset=binary") |}.
Proof.
  apply (referencePart_of_a_data_url (units "image/png;charset=binary") (units "iVBORw0KGgo="));
    vm_compute; reflexivity.
Defined.

Lemma without_marker_witness :
  referencePart (units "data:text/plain,hello") =
  {| data := None;
     mimeType := Some (removeFirst (units "data:") (units "data:text/plain,hello")) |}.
Proof.
  apply (referencePart_without_marker (units "data:text/plain,hello")).
  vm_compute. reflexivity.
Defined.

End ServiceFacts.

(** ** fetchVideoBlob and generateTextVideo *)

Module VideoFacts.
Import Str Service.

Lemma fetchVideoBlob_length (net : Network) (uri : string) :
  (List.length (fetchedUrls (fetchVideoBlob net uri)) <= 2)%nat.
Proof.
  unfold fetchVideoBlob.
  destruct (urlWithKey net uri (queryKey net)) as [url |]; [| cbn; lia].
  destruct (fetchOnce net 0 url); cbn; lia.
Qed.

(** X8: [fetchVideoBlob] fetches at most twice.  When the URL with the key
    parses and its fetch gives a blob, that is the only fetch and its object
    URL is returned.  When the first try fails -- the URI does not parse, the
    fetch is rejected, the response is not ok, or its blob cannot be read --
    the fallback URL is fetched and the call ends as that fetch does: with
    its object URL, or with its failure.  A failure of the first try is never
    reported. *)
Theorem fetchVideoBlob_falls_back_once (net : Network) (uri : string) :
  (List.length (fetchedUrls (fetchVideoBlob net uri)) <= 2)%nat /\
  (forall url blobUrl,
     urlWithKey net uri (queryKey net) = Some url ->
     fetchOnce net 0 url = inr blobUrl ->
     fetchVideoBlob net uri = {| fetchResult := inr blobUrl; fetchedUrls := [url] |}) /\
  (forall url e0,
     urlWithKey net uri (queryKey net) = Some url ->
     fetchOnce net 0 url = inl e0 ->
     fetchVideoBlob net uri =
     {| fetchResult := fetchOnce net 1 (fallbackUrl net uri);
        fetchedUrls := [url; fallbackUrl net uri] |}) /\
  (urlWithKey net uri (queryKey net) = None ->
   fetchVideoBlob net uri =
   {| fetchResult := fetchOnce net 0 (fallbackUrl net uri);
      fetchedUrls := [fallbackUrl net uri] |}) /\
  (forall n response blobUrl,
     fetch net n (fallbackUrl net uri) = inr response ->
     ok response = true -> objectURL response = inr blobUrl ->
     fetchOnce net n (fallbackUrl net uri) = inr blobUrl) /\
  (forall e,
     fetchResult (fetchVideoBlob net uri) = inl e ->
     last (fetchedUrls (fetchVideoBlob net uri)) EmptyString = fallbackUrl net uri /\
     fetchOnce net (List.length (fetchedUrls (fetchVideoBlob net uri)) - 1)
       (fallbackUrl net uri) = inl e).
Proof.
  split; [apply fetchVideoBlob_length |].
  assert (Hfallback : forall n response blobUrl,
    fetch net n (fallbackUrl net uri) = inr response ->
    ok response = true -> objectURL response = inr blobUrl ->
    fetchOnce net n (fallbackUrl net uri) = inr blobUrl).
  { intros n response blobUrl Hfetch Hok Hurl. unfold fetchOnce.
    rewrite Hfetch, Hok. exact Hurl. }
  unfold fetchVideoBlob.
  destruct (urlWithKey net uri (queryKey net)) as [url |].
  - destruct (fetchOnce net 0 url) as [e0 | blobUrl] eqn:Hfirst; cbn.
    + split; [intros url' blobUrl' H; injection H as <-; congruence |].
      split; [intros url' e0' H _; injection H as <-; reflexivity |].
      split; [discriminate |]. split; [exact Hfallback |].
      intros e He. split; [reflexivity | exact He].
    + split; [intros url' blobUrl' H; injection H as <-; congruence |].
      split; [intros url' e0' H; injection H as <-; congruence |].
      split; [discriminate |]. split; [exact Hfallback |]. discriminate.
  - cbn. split; [discriminate |]. split; [discriminate |].
    split; [reflexivity |]. split; [exact Hfallback |].
    intros e He. split; [reflexivity | exact He].
Qed.

(** One attempt with enough fuel for the polling loop: it ends, after at
    most 37 polls and two fetches. *)
Lemma attempt_bounds (studio : Studio) (request : VideoRequest) (extra i : nat) :
  fst (fst (attempt studio request (38 + extra) i)) <> OutOfFuel /\
  (snd (fst (attempt studio request (38 + extra) i)) <= 37)%nat /\
  (List.length (snd (attempt studio request (38 + extra) i)) <= 2)%nat.
Proof.
  unfold attempt.
  destruct (generateVideos studio i request) as [e | operation];
    [cbn; repeat split; [discriminate | lia | lia] |].
  unfold Poll.pollForVideo.
  destruct (pollGetAI studio i) as [e |];
    [cbn; repeat split; [discriminate | lia | lia] |].
  destruct (PollFacts.loop_terminates (service studio i) (clock studio i)
              (38 + extra) O (clock studio i) operation) as [r [-> [Hpolls _]]];
    [lia | lia | lia |].
  destruct (Poll.outcome r) as [e | op];
    [cbn; repeat split; [discriminate | exact Hpolls | lia] |].
  destruct (Poll.error op) as [message |].
  - destruct (Poll.uri op); cbn; repeat split; (discriminate || exact Hpolls || lia).
  - destruct (Poll.uri op) as [[| c uri] |];
      try (cbn; repeat split; (discriminate || exact Hpolls || lia)).
    cbn [fst snd].
    assert (Hlen := fetchVideoBlob_length (network studio i) (String c uri)).
    repeat split; [| exact Hpolls | exact Hlen].
    destruct (fetchResult _); discriminate.
Qed.

(** The two iterations of the loop, spelled out. *)
Lemma generateTextVideo_unrolled (studio : Studio) (text : JSString) (u : N)
    (image imageMimeType promptStyle : JSString) (fuel : nat) :
  let request := revealRequest studio text (u :: image) imageMimeType promptStyle in
  let a0 := attempt studio request fuel 0 in
  let a1 := attempt studio request fuel 1 in
  let second (slept : nat) :=
    {| revealed :=
         match fst (fst a1) with
         | Returns url => Some (inr url)
         | Throws e => Some (inl e)
         | OperationError message => Some (inl (Error message))
         | NothingUsable => Some (inl (Error "Unable to generate video."))
         | OutOfFuel => None
         end;
       generated := 2;
       polled := snd (fst a0) + snd (fst a1);
       downloads := snd a0 ++ snd a1;
       sleeps := slept |} in
  getAI studio = None ->
  generateTextVideo studio text (Some (u :: image)) imageMimeType promptStyle fuel =
  match fst (fst a0) with
  | Returns url =>
      {| revealed := Some (inr url); generated := 1; polled := snd (fst a0);
         downloads := snd a0; sleeps := 0 |}
  | OutOfFuel =>
      {| revealed := None; generated := 1; polled := snd (fst a0);
         downloads := snd a0; sleeps := 0 |}
  | NothingUsable => second O
  | Throws _ | OperationError _ => second 1%nat
  end.
Proof.
  cbv zeta. intros Hclient. unfold generateTextVideo. rewrite Hclient.
  cbn [revealLoop maxRevealRetries].
  destruct (attempt studio _ fuel 0) as [[e0 p0] u0].
  destruct (attempt studio _ fuel 1) as [[e1 p1] u1].
  cbn [fst snd].
  destruct e0; destruct e1; reflexivity.
Qed.

(** X9: when every request is answered, [generateTextVideo] always ends
    (38 evaluations of a polling loop's condition are fuel enough), after at
    most two calls of [generateVideos], 74 polls, four fetches and one
    [sleep(3000)].  When the client cannot be constructed it fails at once
    with the constructor's exception and calls nothing; otherwise, without
    an image, it fails at once with the image error and calls nothing. *)
Theorem generateTextVideo_ends_within_two_attempts
    (studio : Studio) (text : JSString) (imageBase64 : option JSString)
    (imageMimeType promptStyle : JSString) (extra : nat) :
  revealed (generateTextVideo studio text imageBase64 imageMimeType promptStyle (38 + extra))
    <> None /\
  (generated (generateTextVideo studio text imageBase64 imageMimeType promptStyle (38 + extra))
     <= 2)%nat /\
  (polled (generateTextVideo studio text imageBase64 imageMimeType promptStyle (38 + extra))
     <= 74)%nat /\
  (List.length
     (downloads (generateTextVideo studio text imageBase64 imageMimeType promptStyle (38 + extra)))
     <= 4)%nat /\
  (sleeps (generateTextVideo studio text imageBase64 imageMimeType promptStyle (38 + extra))
     <= 1)%nat /\
  (forall e,
     getAI studio = Some e ->
     generateTextVideo studio text imageBase64 imageMimeType promptStyle (38 + extra) =
     {| revealed := Some (inl e);
        generated := O; polled := O; downloads := []; sleeps := O |}) /\
  (getAI studio = None ->
   imageBase64 = None \/ imageBase64 = Some [] ->
   generateTextVideo studio text imageBase64 imageMimeType promptStyle (38 + extra) =
   {| revealed := Some (inl (Error "Image generation failed, cannot generate video."));
      generated := O; polled := O; downloads := []; sleeps := O |}).
Proof.
  destruct (getAI studio) as [e0 |] eqn:Hclient.
  { unfold generateTextVideo. rewrite Hclient. cbn.
    repeat split; try discriminate; try lia.
    intros e H. injection H as <-. reflexivity. }
  destruct imageBase64 as [[| u image] |];
    try (unfold generateTextVideo; rewrite Hclient; cbn;
         repeat split; (discriminate || lia || reflexivity)).
  rewrite generateTextVideo_unrolled by exact Hclient. cbv zeta.
  set (request := revealRequest studio text (u :: image) imageMimeType promptStyle).
  destruct (attempt_bounds studio request extra 0) as (Hend0 & Hpoll0 & Hurl0).
  destruct (attempt_bounds studio request extra 1) as (Hend1 & Hpoll1 & Hurl1).
  assert (Hlen : (List.length (snd (attempt studio request (38 + extra) 0) ++
                               snd (attempt studio request (38 + extra) 1)) <= 4)%nat)
    by (rewrite length_app; lia).
  destruct (fst (fst (attempt studio request (38 + extra) 0)));
    try congruence;
    try (cbn [revealed generated polled downloads sleeps];
         repeat split; try lia; try discriminate;
         try (intros _ [H | H]; discriminate H);
         destruct (fst (fst (attempt studio request (38 + extra) 1)));
         congruence || discriminate).
Qed.

(** X10: a URL that [generateTextVideo] returns is the one the first
    returning attempt downloaded, and nothing is called after it: when the
    first attempt returns there is no second one and no sleep. *)
Theorem generateTextVideo_returns_the_first_success
    (studio : Studio) (text : JSString) (u : N) (image imageMimeType promptStyle : JSString)
    (fuel : nat) (url : string) :
  revealed (generateTextVideo studio text (Some (u :: image)) imageMimeType promptStyle fuel)
    = Some (inr url) ->
  let request := revealRequest studio text (u :: image) imageMimeType promptStyle in
  let r := generateTextVideo studio text (Some (u :: image)) imageMimeType promptStyle fuel in
  (ending studio request fuel 0 = Returns url /\ generated r = 1%nat /\ sleeps r = O) \/
  (ending studio request fuel 1 = Returns url /\ generated r = 2%nat /\
   forall url', ending studio request fuel 0 <> Returns url').
Proof.
  cbv zeta.
  destruct (getAI studio) as [e0 |] eqn:Hclient;
    [unfold generateTextVideo; rewrite Hclient; discriminate |].
  rewrite generateTextVideo_unrolled by exact Hclient. cbv zeta. unfold ending.
  destruct (fst (fst (attempt studio _ fuel 0))) eqn:H0;
    cbn [revealed generated sleeps]; try discriminate.
  - intros H. injection H as <-. left. repeat split.
  - destruct (fst (fst (attempt studio _ fuel 1))); try discriminate.
    intros H. injection H as <-. right. repeat split. discriminate.
  - destruct (fst (fst (attempt studio _ fuel 1))); try discriminate.
    intros H. injection H as <-. right. repeat split. discriminate.
  - destruct (fst (fst (attempt studio _ fuel 1))); try discriminate.
    intros H. injection H as <-. right. repeat split. discriminate.
Qed.

Lemma first_success_witness :
  (ending Studios.readyStudio
     (revealRequest Studios.readyStudio (units "Hi") (units "AAAA") (units "image/png")
        (units "neon"))
     1 0 = Returns "blob:video" /\
   generated (generateTextVideo Studios.readyStudio (units "Hi") (Some (units "AAAA"))
                (units "image/png") (units "neon") 1) = 1%nat /\
   sleeps (generateTextVideo Studios.readyStudio (units "Hi") (Some (units "AAAA"))
             (units "image/png") (units "neon") 1) = O) \/
  (ending Studios.readyStudio
     (revealRequest Studios.readyStudio (units "Hi") (units "AAAA") (units "image/png")
        (units "neon"))
     1 1 = Returns "blob:video" /\
   generated (generateTextVideo Studios.readyStudio (units "Hi") (Some (units "AAAA"))
                (units "image/png") (units "neon") 1) = 2%nat /\
   forall url',
     ending Studios.readyStudio
       (revealRequest Studios.readyStudio (units "Hi") (units "AAAA") (units "image/png")
          (units "neon"))
       1 0 <> Returns url').
Proof.
  apply (generateTextVideo_returns_the_first_success Studios.readyStudio (units "Hi")
           65%N (units "AAA") (units "image/png") (units "neon") 1 "blob:video").
  vm_compute. reflexivity.
Defined.

(** X11: when [generateTextVideo] fails on an image, either the client
    could not be constructed -- then the failure is the constructor's
    exception and no attempt was made -- or both attempts were made and the
    failure is the second attempt's: the exception thrown there, the message
    of its operation's error, or "Unable to generate video." when its
    operation finished with neither an error nor a video.  What went wrong
    in the first attempt is never reported. *)
Theorem generateTextVideo_reports_the_second_failure
    (studio : Studio) (text : JSString) (u : N) (image imageMimeType promptStyle : JSString)
    (fuel : nat) (e : Exception) :
  revealed (generateTextVideo studio text (Some (u :: image)) imageMimeType promptStyle fuel)
    = Some (inl e) ->
  let request := revealRequest studio text (u :: image) imageMimeType promptStyle in
  (getAI studio = Some e /\
   generated (generateTextVideo studio text (Some (u :: image)) imageMimeType promptStyle fuel)
     = O) \/
  (getAI studio = None /\
   generated (generateTextVideo studio text (Some (u :: image)) imageMimeType promptStyle fuel)
     = 2%nat /\
   (forall url, ending studio request fuel 0 <> Returns url) /\
   match ending studio request fuel 1 with
   | Throws e' => e = e'
   | OperationError message => e = Error message
   | NothingUsable => e = Error "Unable to generate video."
   | _ => False
   end).
Proof.
  cbv zeta.
  destruct (getAI studio) as [e0 |] eqn:Hclient.
  { unfold generateTextVideo. rewrite Hclient. cbn.
    intros H. injection H as <-. left. split; reflexivity. }
  rewrite generateTextVideo_unrolled by exact Hclient. cbv zeta. unfold ending.
  destruct (fst (fst (attempt studio _ fuel 0))) eqn:H0;
    cbn [revealed generated sleeps]; try discriminate;
    (destruct (fst (fst (attempt studio _ fuel 1))); try discriminate;
     intros H; injection H as <-; right; repeat split; discriminate).
Qed.

Lemma second_failure_witness :
  (getAI Studios.failingStudio = Some (Error "quota exceeded") /\
   generated (generateTextVideo Studios.failingStudio (units "Hi") (Some (units "AAAA"))
                (units "image/png") (units "neon") 1) = O) \/
  (getAI Studios.failingStudio = None /\
   generated (generateTextVideo Studios.failingStudio (units "Hi") (Some (units "AAAA"))
                (units "image/png") (units "neon") 1) = 2%nat /\
   (forall url,
      ending Studios.failingStudio
        (revealRequest Studios.failingStudio (units "Hi") (units "AAAA") (units "image/png")
           (units "neon"))
        1 0 <> Returns url) /\
   match
     ending Studios.failingStudio
       (revealRequest Studios.failingStudio (units "Hi") (units "AAAA") (units "image/png")
          (units "neon"))
       1 1
   with
   | Throws e' => Error "quota exceeded" = e'
   | OperationError message => Error "quota exceeded" = Error message
   | NothingUsable => Error "quota exceeded" = Error "Unable to generate video."
   | _ => False
   end).
Proof.
  apply (generateTextVideo_reports_the_second_failure Studios.failingStudio (units "Hi")
           65%N (units "AAA") (units "image/png") (units "neon") 1 (Error "quota exceeded")).
  vm_compute. reflexivity.
Defined.

End VideoFacts.

(** ** The page *)

Module PageFacts.
Import Str Page.

Lemma trimStart_suffix (s : JSString) : exists p, s = p ++ trimStart s.
Proof.
  induction s as [| u s [p IH]]; [exists []; reflexivity |].
  simpl. destruct (isWhiteSpace u).
  - exists (u :: p). simpl. rewrite <- IH. reflexivity.
  - exists []. reflexivity.
Qed.

(** What [trim] leaves begins and ends with a unit that is not white space. *)
Lemma trim_ends (s t : JSString) (u : N) :
  trim s = u :: t ->
  isWhiteSpace u = false /\ isWhiteSpace (last (u :: t) u) = false.
Proof.
  unfold trim. intros H.
  destruct (trimStart (rev (trimStart s))) as [| v b] eqn:Hb; [discriminate |].
  assert (Hv := StrFacts.trimStart_head _ _ _ Hb).
  destruct (trimStart_suffix (rev (trimStart s))) as [p Hp]. rewrite Hb in Hp.
  apply (f_equal (@rev N)) in Hp. rewrite rev_involutive, rev_app_distr in Hp.
  rewrite H in Hp. split.
  - destruct (trimStart s) as [| w a] eqn:Ha; [discriminate |].
    injection Hp as <- _. exact (StrFacts.trimStart_head _ _ _ Ha).
  - rewrite <- H. simpl rev. rewrite last_last. exact Hv.
Qed.

(** X12: the suggestion button's handler.  When the client is constructed
    the spinner is off afterwards, whether the request succeeded or not;
    when the constructor throws, the spinner stays on and the art direction
    is untouched.  In every case the art direction is either what it was or
    a suggestion that is not blank and has no white space at either end, a
    failed request leaves it as it was, and the text and the state are not
    touched. *)
Theorem suggestStyle_never_blanks_the_style
    (getAI : option Exception) (reply : Exception + option JSString) (app : App) :
  (getAI = None -> isSuggestingStyle (suggestStyle getAI reply app) = false) /\
  (forall e,
     getAI = Some e ->
     isSuggestingStyle (suggestStyle getAI reply app) = true /\
     inputStyle (suggestStyle getAI reply app) = inputStyle app) /\
  (inputStyle (suggestStyle getAI reply app) = inputStyle app \/
   exists u t,
     inputStyle (suggestStyle getAI reply app) = u :: t /\
     isWhiteSpace u = false /\ isWhiteSpace (last (u :: t) u) = false) /\
  (forall e, reply = inl e -> inputStyle (suggestStyle getAI reply app) = inputStyle app) /\
  inputText (suggestStyle getAI reply app) = inputText app /\
  state (suggestStyle getAI reply app) = state app.
Proof.
  unfold suggestStyle, Service.generateStyleSuggestion.
  destruct getAI as [e0 |]; cbn [isSuggestingStyle inputStyle inputText state].
  - split; [discriminate |]. split; [intros e _; split; reflexivity |].
    split; [left; reflexivity |]. repeat split.
  - split; [reflexivity |]. split; [discriminate |].
    split; [| split; [intros e ->; reflexivity | split; reflexivity]].
    destruct reply as [e | [text |]]; try (left; reflexivity).
    destruct (trim text) as [| u t] eqn:Hs; [left; reflexivity |].
    right. exists u, t. split; [reflexivity |]. exact (trim_ends text t u Hs).
Qed.

Lemma prefix_app (p s : string) : String.prefix p (p ++ s) = true.
Proof.
  induction p as [| a p IH]; simpl; [destruct s; reflexivity |].
  destruct (Ascii.ascii_dec a a); [exact IH | congruence].
Qed.

Lemma includes_app (p a b : string) : includes p (a ++ p ++ b) = true.
Proof.
  induction a as [| c a IH].
  - assert (H := prefix_app p b). change ("" ++ p ++ b)%string with (p ++ b)%string.
    destruct (p ++ b)%string; cbn [includes]; rewrite H; reflexivity.
  - change (String c a ++ p ++ b)%string with (String c (a ++ p ++ b)).
    cbn [includes]. rewrite IH. apply orb_true_r.
Qed.

(** X13: a run of [startProcess] with a text and a selected key leaves the
    page in [PLAYING], [IDLE] or [ERROR], never in a generating state.  In
    [PLAYING] the image and the video are set.  In [IDLE] the key dialog is
    open.  In [ERROR] the message shown is not empty and contains neither
    "404" nor "Requested entity was not found": such failures are never shown
    to the user, they reopen the key dialog. *)
Theorem startProcess_settles (session : Session) (app : App) :
  trim (inputText app) <> [] -> hasSelectedApiKey session = Some true ->
  match state (fst (startProcess session app)) with
  | PLAYING =>
      (exists url, videoSrc (fst (startProcess session app)) = Some url) /\
      (exists src, imageSrc (fst (startProcess session app)) = Some src) /\
      statusMessage (fst (startProcess session app)) = Plain "Done."
  | IDLE =>
      showKeyDialog (fst (startProcess session app)) = true /\
      videoSrc (fst (startProcess session app)) = None
  | ERROR =>
      videoSrc (fst (startProcess session app)) = None /\
      exists m,
        statusMessage (fst (startProcess session app)) = Plain m /\
        m <> EmptyString /\
        includes "404" m = false /\
        includes "Requested entity was not found" m = false
  | _ => False
  end /\
  isGifGenerating (fst (startProcess session app)) = false.
Proof.
  intros Htext Hkey. unfold startProcess. rewrite Hkey.
  destruct (trim (inputText app)) as [| u t]; [congruence |].
  assert (Hfailed : forall err designing,
    videoSrc designing = None -> isGifGenerating designing = false ->
    match state (failed err designing) with
    | PLAYING =>
        (exists url, videoSrc (failed err designing) = Some url) /\
        (exists src, imageSrc (failed err designing) = Some src) /\
        statusMessage (failed err designing) = Plain "Done."
    | IDLE =>
        showKeyDialog (failed err designing) = true /\
        videoSrc (failed err designing) = None
    | ERROR =>
        videoSrc (failed err designing) = None /\
        exists m,
          statusMessage (failed err designing) = Plain m /\
          m <> EmptyString /\
          includes "404" m = false /\
          includes "Requested entity was not found" m = false
    | _ => False
    end /\
    isGifGenerating (failed err designing) = false).
  { intros err designing Hv Hg. unfold failed.
    set (msg := match err with Some (String c m) => String c m | _ => EmptyString end).
    destruct (includes "Requested entity was not found" msg) eqn:H1; cbn [orb].
    - cbn. auto.
    - destruct (includes "404" msg) eqn:H2; cbn [state showKeyDialog videoSrc statusMessage viewMode isGifGenerating].
      + auto.
      + split; [| auto]. split; [exact Hv |].
        destruct msg as [| c m] eqn:Hmsg.
        * eexists. split; [reflexivity |]. split; [discriminate |].
          split; vm_compute; reflexivity.
        * eexists. split; [reflexivity |]. split; [discriminate |]. split; assumption. }
  destruct (generateTextImage session _ _ _ _) as [err | image].
  - cbn [fst]. apply Hfailed; reflexivity.
  - destruct (generateTextVideo session _ _ _ _) as [err | videoUrl].
    + cbn [fst]. apply Hfailed; reflexivity.
    + cbn. repeat split; eauto.
Qed.

Lemma settles_witness :
  match state (fst (startProcess Studios.goodSession Studios.typedPage)) with
  | PLAYING =>
      (exists url,
         videoSrc (fst (startProcess Studios.goodSession Studios.typedPage)) = Some url) /\
      (exists src,
         imageSrc (fst (startProcess Studios.goodSession Studios.typedPage)) = Some src) /\
      statusMessage (fst (startProcess Studios.goodSession Studios.typedPage)) = Plain "Done."
  | IDLE =>
      showKeyDialog (fst (startProcess Studios.goodSession Studios.typedPage)) = true /\
      videoSrc (fst (startProcess Studios.goodSession Studios.typedPage)) = None
  | ERROR =>
      videoSrc (fst (startProcess Studios.goodSession Studios.typedPage)) = None /\
      exists m,
        statusMessage (fst (startProcess Studios.goodSession Studios.typedPage)) = Plain m /\
        m <> EmptyString /\
        includes "404" m = false /\
        includes "Requested entity was not found" m = false
  | _ => False
  end /\
  isGifGenerating (fst (startProcess Studios.goodSession Studios.typedPage)) = false.
Proof.
  apply (startProcess_settles Studios.goodSession Studios.typedPage).
  - vm_compute. discriminate.
  - reflexivity.
Defined.

(** X14: without a text [startProcess] changes nothing, and without a
    selected key it only opens the key dialog: the state, the image and the
    video stay as they were and no object URL is revoked. *)
Theorem startProcess_needs_text_and_key (session : Session) (app : App) :
  trim (inputText app) = [] \/ hasSelectedApiKey session <> Some true ->
  snd (startProcess session app) = [] /\
  state (fst (startProcess session app)) = state app /\
  imageSrc (fst (startProcess session app)) = imageSrc app /\
  videoSrc (fst (startProcess session app)) = videoSrc app /\
  statusMessage (fst (startProcess session app)) = statusMessage app /\
  (trim (inputText app) = [] -> fst (startProcess session app) = app) /\
  (trim (inputText app) <> [] -> showKeyDialog (fst (startProcess session app)) = true).
Proof.
  intros H. unfold startProcess.
  destruct (trim (inputText app)) as [| u t].
  - cbn. repeat split; congruence.
  - destruct H as [H | H]; [discriminate |].
    destruct (hasSelectedApiKey session) as [[|] |]; try congruence;
      cbn; repeat split; congruence.
Qed.

Lemma needs_text_witness :
  snd (startProcess Studios.goodSession Studios.blankPage) = [] /\
  state (fst (startProcess Studios.goodSession Studios.blankPage)) = state Studios.blankPage /\
  imageSrc (fst (startProcess Studios.goodSession Studios.blankPage))
    = imageSrc Studios.blankPage /\
  videoSrc (fst (startProcess Studios.goodSession Studios.blankPage))
    = videoSrc Studios.blankPage /\
  statusMessage (fst (startProcess Studios.goodSession Studios.blankPage))
    = statusMessage Studios.blankPage /\
  (trim (inputText Studios.blankPage) = [] ->
   fst (startProcess Studios.goodSession Studios.blankPage) = Studios.blankPage) /\
  (trim (inputText Studios.blankPage) <> [] ->
   showKeyDialog (fst (startProcess Studios.goodSession Studios.blankPage)) = true).
Proof.
  apply (startProcess_needs_text_and_key Studios.goodSession Studios.blankPage).
  left. reflexivity.
Defined.

(** X15: the carousel's index stays an index of [MOCK_VIDEOS] under
    [handleNext] and [handlePrev], and each undoes the other. *)
Theorem carousel_index_stays_in_range (i : Z) :
  0 <= i < Z.of_nat (List.length MOCK_VIDEOS) ->
  0 <= handleNext i < Z.of_nat (List.length MOCK_VIDEOS) /\
  0 <= handlePrev i < Z.of_nat (List.length MOCK_VIDEOS) /\
  handlePrev (handleNext i) = i /\
  handleNext (handlePrev i) = i.
Proof.
  unfold handleNext, handlePrev. simpl List.length. simpl Z.of_nat. intros Hi.
  assert (i = 0 \/ i = 1 \/ i = 2 \/ i = 3) as [-> | [-> | [-> | ->]]] by lia;
    vm_compute; repeat split; discriminate.
Qed.

Lemma carousel_witness :
  0 <= handleNext 3 < Z.of_nat (List.length MOCK_VIDEOS) /\
  0 <= handlePrev 3 < Z.of_nat (List.length MOCK_VIDEOS) /\
  handlePrev (handleNext 3) = 3 /\
  handleNext (handlePrev 3) = 3.
Proof.
  apply (carousel_index_stays_in_range 3). simpl. lia.
Defined.

(** X16: a failure whose message contains "404" or "Requested entity was
    not found" anywhere sends the page back to [IDLE] with the key dialog
    open, and the message is not shown: the status line stays as it was. *)
Theorem key_failures_reopen_the_key_dialog (before after : string) (app : App) :
  (state (failed (Some (before ++ "404" ++ after)%string) app) = IDLE /\
   showKeyDialog (failed (Some (before ++ "404" ++ after)%string) app) = true /\
   statusMessage (failed (Some (before ++ "404" ++ after)%string) app) = statusMessage app) /\
  (state (failed (Some (before ++ "Requested entity was not found" ++ after)%string) app) = IDLE /\
   showKeyDialog (failed (Some (before ++ "Requested entity was not found" ++ after)%string) app)
     = true /\
   statusMessage (failed (Some (before ++ "Requested entity was not found" ++ after)%string) app)
     = statusMessage app).
Proof.
  assert (H : forall marker,
    marker <> EmptyString ->
    includes "Requested entity was not found" (before ++ marker ++ after)%string
      || includes "404" (before ++ marker ++ after)%string = true ->
    state (failed (Some (before ++ marker ++ after)%string) app) = IDLE /\
    showKeyDialog (failed (Some (before ++ marker ++ after)%string) app) = true /\
    statusMessage (failed (Some (before ++ marker ++ after)%string) app) = statusMessage app).
  { intros marker Hne Hin. unfold failed.
    destruct (before ++ marker ++ after)%string as [| c m] eqn:E.
    - destruct before; [destruct marker; [congruence | discriminate] | discriminate].
    - rewrite Hin. cbn. auto. }
  split; apply H; try discriminate; rewrite includes_app;
    [apply orb_true_r | reflexivity].
Qed.

Lemma frameLoop_blob_type
    (quantize : Uint8ClampedArray -> Z -> Palette)
    (applyPalette : Uint8ClampedArray -> Palette -> Uint8Array)
    (video : Video.t) (blob : Blob) :
  forall (fuel : nat) (st : Loop),
    promise (frameLoop quantize applyPalette video fuel st) = Fulfilled blob ->
    blobType blob = "image/gif"%string.
Proof.
  induction fuel as [| fuel IH]; intros st; simpl; [discriminate |].
  destruct (Num.lt (i st) (totalFrames video)).
  - destruct (getImageData _ _); [simpl; discriminate | apply IH].
  - simpl. intros H. injection H as <-. reflexivity.
Qed.

(** X17: [handleDownloadGif] on top of [createGifFromVideo].  Whatever makes
    the conversion fail (gifenc missing, the clip not loading, no canvas
    context, an exception while reading a frame), the user gets the same
    alert and the button is released; what is downloaded is a blob of type
    image/gif, and then there is no alert.  A clip whose load signals
    neither [loadedmetadata] nor an error leaves the button busy: nothing
    releases it.  Without a video nothing happens. *)
Theorem handleDownloadGif_after_the_conversion
    (quantize : Uint8ClampedArray -> Z -> Palette)
    (applyPalette : Uint8ClampedArray -> Palette -> Uint8Array)
    (host : Host) (browser : string -> Video.t) (fuel : nat) (app : App) :
  let gifPromise (url : string) :=
    promise (createGifFromVideo quantize applyPalette host (browser url) fuel) in
  (alerts (handleDownloadGif gifPromise app) = [] \/
   alerts (handleDownloadGif gifPromise app) = ["Could not generate GIF from this video."%string] /\
   downloaded (handleDownloadGif gifPromise app) = [] /\
   isGifGenerating (page (handleDownloadGif gifPromise app)) = false) /\
  (forall blob,
     In blob (downloaded (handleDownloadGif gifPromise app)) ->
     blobType blob = "image/gif"%string /\
     downloaded (handleDownloadGif gifPromise app) = [blob] /\
     isGifGenerating (page (handleDownloadGif gifPromise app)) = false) /\
  (forall c url,
     videoSrc app = Some (String c url) ->
     gifencLoaded host = false \/
     load crossOrigin (browser (String c url)) = LoadError \/
     load crossOrigin (browser (String c url)) = Loadedmetadata /\ context2d host = false ->
     alerts (handleDownloadGif gifPromise app) = ["Could not generate GIF from this video."%string]) /\
  (forall c url,
     videoSrc app = Some (String c url) ->
     gifencLoaded host = true ->
     load crossOrigin (browser (String c url)) = NoSignal ->
     isGifGenerating (page (handleDownloadGif gifPromise app)) = true /\
     alerts (handleDownloadGif gifPromise app) = [] /\
     downloaded (handleDownloadGif gifPromise app) = []) /\
  (videoSrc app = None \/ videoSrc app = Some EmptyString ->
   handleDownloadGif gifPromise app = {| page := app; alerts := []; downloaded := [] |}) /\
  state (page (handleDownloadGif gifPromise app)) = state app /\
  videoSrc (page (handleDownloadGif gifPromise app)) = videoSrc app.
Proof.
  cbv zeta. unfold handleDownloadGif.
  destruct (videoSrc app) as [[| c0 url0] |] eqn:Hsrc.
  - cbn. repeat split; auto; try contradiction; intros; discriminate.
  - set (video := browser (String c0 url0)).
    split; [| split; [| split; [| split; [| split]]]].
    + destruct (promise _); cbn; auto.
    + intros blob.
      destruct (promise (createGifFromVideo quantize applyPalette host video fuel)) as [| b | e] eqn:Hp;
        cbn; try contradiction.
      intros [<- | []]. split; [| auto].
      unfold createGifFromVideo, onloadedmetadata in Hp.
      destruct (gifencLoaded host); cbn [negb] in Hp; [| discriminate].
      destruct (load crossOrigin video); try discriminate.
      destruct (context2d host); cbn [negb] in Hp; [| discriminate].
      exact (frameLoop_blob_type quantize applyPalette video b fuel _ Hp).
    + intros c url H Hfail. injection H as <- <-. fold video in Hfail.
      unfold createGifFromVideo, onloadedmetadata.
      destruct (gifencLoaded host) eqn:Hlib; cbn [negb]; [| reflexivity].
      destruct Hfail as [H | [-> | [-> ->]]]; [discriminate | reflexivity | reflexivity].
    + intros c url H Hlib Hload. injection H as <- <-. fold video in Hload.
      unfold createGifFromVideo. rewrite Hlib, Hload. cbn. auto.
    + intros [H | H]; discriminate H.
    + destruct (promise _); cbn; auto.
  - cbn. repeat split; auto; try contradiction; intros; discriminate.
Qed.

End PageFacts.

(** ** Rounding of binary64 products *)

Module RoundFacts.
Import Num.

Lemma fexp_eq (x : Z) : fexp prec emax x = Z.max (x - 53) (-1074).
Proof. reflexivity. Qed.

Lemma digits2_pos_size (p : positive) : digits2_pos p = Pos.size p.
Proof. induction p; simpl; congruence. Qed.

Lemma Zdigits2_log2 (p : positive) : Zdigits2 (Z.pos p) = Z.log2 (Z.pos p) + 1.
Proof.
  destruct p; simpl; rewrite ?digits2_pos_size; lia.
Qed.

Lemma Zdigits2_le (x k : Z) : 0 <= k -> 0 <= x < 2 ^ k -> Zdigits2 x <= k.
Proof.
  intros Hk [H0 Hx]. destruct x as [| p | p]; [simpl; lia | | lia].
  rewrite Zdigits2_log2.
  assert (Z.log2 (Z.pos p) < k) by (apply Z.log2_lt_pow2; lia). lia.
Qed.

Section Shift.
Variable m0 : Z.

(** After [k] shifts the mantissa is at most [m0 / 2^k], and a set round bit
    says that what was shifted out is at least half a unit. *)
Definition shifted (k : Z) (mrs : shr_record) : Prop :=
  0 <= shr_m mrs /\
  shr_m mrs * 2 ^ k <= m0 /\
  (shr_r mrs = true -> 1 <= k /\ shr_m mrs * 2 ^ k + 2 ^ (k - 1) <= m0).

Lemma shifted_shr_1 (k : Z) (mrs : shr_record) :
  0 <= k -> shifted k mrs -> shifted (k + 1) (shr_1 mrs).
Proof.
  intros Hk (Hpos & Hle & _). destruct mrs as [m r s]. cbn [shr_m shr_r] in *.
  assert (Hp : 0 < 2 ^ k) by (apply Z.pow_pos_nonneg; lia).
  unfold shifted. replace (k + 1 - 1) with k by lia.
  rewrite Z.pow_add_r, Z.pow_1_r by lia.
  destruct m as [| [p | p |] | p]; cbn [shr_1 shr_m shr_r]; try lia;
    repeat split; try lia; try discriminate.
Qed.

Lemma shifted_iter (p : positive) :
  forall (k : Z) (mrs : shr_record),
    0 <= k -> shifted k mrs -> shifted (k + Z.pos p) (iter_pos shr_1 p mrs).
Proof.
  induction p as [p IH | p IH |]; intros k mrs Hk H; cbn [iter_pos].
  - replace (k + Z.pos p~1) with (k + 1 + Z.pos p + Z.pos p) by lia.
    apply IH; [lia |]. apply IH; [lia |]. apply shifted_shr_1; assumption.
  - replace (k + Z.pos p~0) with (k + Z.pos p + Z.pos p) by lia.
    apply IH; [lia |]. apply IH; assumption.
  - apply shifted_shr_1; assumption.
Qed.

End Shift.

(** [shr] from an exact mantissa. *)
Lemma shr_exact (m0 e n : Z) :
  0 <= m0 ->
  shifted m0 (Z.max n 0) (fst (shr (shr_record_of_loc m0 loc_Exact) e n)) /\
  snd (shr (shr_record_of_loc m0 loc_Exact) e n) = e + Z.max n 0.
Proof.
  intros H0.
  assert (Hstart : shifted m0 0 (shr_record_of_loc m0 loc_Exact)).
  { unfold shifted. cbn. repeat split; try lia; try discriminate. }
  destruct n as [| p | p]; cbn [shr fst snd].
  - split; [exact Hstart | lia].
  - split; [| lia]. replace (Z.max (Z.pos p) 0) with (0 + Z.pos p) by lia.
    apply shifted_iter; [lia | exact Hstart].
  - split; [exact Hstart | lia].
Qed.

(** What rounding to nearest adds: nothing, or one unit when the round bit
    is set. *)
Lemma round_nearest_even_bounds (mrs : shr_record) :
  shr_m mrs <= round_nearest_even (shr_m mrs) (loc_of_shr_record mrs)
    <= shr_m mrs + (if shr_r mrs then 1 else 0).
Proof.
  destruct mrs as [m [|] [|]]; cbn; try lia.
  destruct (Z.even m); lia.
Qed.

(** The rounding slack of a shift by [n]: half a unit of the last place
    kept, in units of the place shifted from. *)
Definition slack (n : Z) : Z := if 0 <? n then 2 ^ (n - 1) else 0.

Lemma slack_nonneg (n : Z) : 0 <= slack n.
Proof.
  unfold slack. destruct (Z.ltb_spec 0 n); [| lia].
  apply Z.pow_nonneg. lia.
Qed.

(** The rounded value of a positive mantissa that stays below [2^K]: a zero
    or a finite number, never an infinity, and at most half a unit in the
    last place above the exact value. *)
Lemma binary_round_aux_upper (s : bool) (P E K : Z) :
  0 < P -> E <= K -> K <= 1024 -> E <= emax - prec ->
  P + slack (fexp prec emax (Zdigits2 P + E) - E) < 2 ^ (K - E) ->
  binary_round_aux prec emax s P E loc_Exact = S754_zero s \/
  exists m e,
    binary_round_aux prec emax s P E loc_Exact = S754_finite s m e /\
    E <= e /\
    Z.pos m * 2 ^ (e - E) <= P + slack (fexp prec emax (Zdigits2 P + E) - E).
Proof.
  intros HP HEK HK HE Hbound.
  unfold binary_round_aux, shr_fexp.
  set (n := fexp prec emax (Zdigits2 P + E) - E) in *.
  destruct (shr_exact P E n) as [H1 He1]; [lia |].
  destruct (shr (shr_record_of_loc P loc_Exact) E n) as [mrs1 e1].
  cbn [fst snd] in H1, He1.
  destruct H1 as (Hm1 & Hle1 & Hr1).
  assert (Hround := round_nearest_even_bounds mrs1).
  set (mr := round_nearest_even (shr_m mrs1) (loc_of_shr_record mrs1)) in *.
  assert (Hp1 : 0 < 2 ^ Z.max n 0) by (apply Z.pow_pos_nonneg; lia).
  (* the rounded mantissa, in units of [2^E] *)
  assert (Hmr : 0 <= mr /\ mr * 2 ^ (e1 - E) <= P + slack n).
  { split; [lia |]. replace (e1 - E) with (Z.max n 0) by lia.
    unfold slack. destruct (shr_r mrs1) eqn:Hr.
    - destruct (Hr1 eq_refl) as [Hn Hhalf].
      destruct (Z.ltb_spec 0 n); [| lia].
      replace (Z.max n 0) with n in * by lia.
      assert (2 ^ n = 2 * 2 ^ (n - 1)).
      { replace n with (Z.succ (n - 1)) at 1 by lia. apply Z.pow_succ_r. lia. }
      nia.
    - assert (mr = shr_m mrs1) by lia.
      destruct (Z.ltb_spec 0 n); nia. }
  destruct Hmr as [Hmr0 Hmr].
  set (n2 := fexp prec emax (Zdigits2 mr + e1) - e1).
  destruct (shr_exact mr e1 n2) as [H2 He2]; [lia |].
  destruct (shr (shr_record_of_loc mr loc_Exact) e1 n2) as [mrs2 e2].
  cbn [fst snd] in H2, He2.
  destruct H2 as (Hm2 & Hle2 & _).
  assert (Hp2 : 0 < 2 ^ Z.max n2 0) by (apply Z.pow_pos_nonneg; lia).
  destruct (shr_m mrs2) as [| m2 | m2] eqn:Hm; [left; reflexivity | | lia].
  right.
  assert (He1E : E <= e1) by lia.
  assert (HpE : 0 < 2 ^ (e1 - E)) by (apply Z.pow_pos_nonneg; lia).
  assert (Hval : Z.pos m2 * 2 ^ (e2 - E) <= P + slack n).
  { replace (e2 - E) with (Z.max n2 0 + (e1 - E)) by lia.
    rewrite Z.pow_add_r by lia. nia. }
  (* no overflow *)
  assert (Hfit : e2 <= emax - prec).
  { assert (Hmrpos : 0 < mr) by nia.
    unfold emax, prec in *.
    assert (Hfexp1 : e1 <= 971).
    { assert (Hd : Zdigits2 P <= K - E).
      { apply Zdigits2_le; [lia |]. assert (Hs := slack_nonneg n). lia. }
      subst n. rewrite fexp_eq in *. lia. }
    destruct (Z.le_gt_cases e1 K) as [HeK | HeK].
    - assert (Hd : Zdigits2 mr <= K - e1).
      { apply Zdigits2_le; [lia |]. split; [lia |].
        assert (2 ^ (K - E) = 2 ^ (K - e1) * 2 ^ (e1 - E)).
        { rewrite <- Z.pow_add_r by lia. f_equal. lia. }
        assert (0 < 2 ^ (K - e1)) by (apply Z.pow_pos_nonneg; lia).
        nia. }
      subst n2. rewrite fexp_eq in *. lia.
    - exfalso.
      assert (2 ^ (K - E) <= 2 ^ (e1 - E)) by (apply Z.pow_le_mono_r; lia).
      nia. }
  exists m2, e2. apply Z.leb_le in Hfit. rewrite Hfit.
  split; [reflexivity |]. split; [lia | exact Hval].
Qed.

End RoundFacts.

(** ** getRandomStyle *)

Module StyleFacts.
Import Num Utils.

(** [Math.floor] of a non-negative double below [B]. *)
Lemma Math_floor_below (m : positive) (e E B : Z) :
  E <= e -> E <= 0 -> Z.pos m * 2 ^ (e - E) < B * 2 ^ (- E) ->
  0 <= Z.shiftl (Z.pos m) e < B.
Proof.
  intros HEe HE Hlt.
  assert (HpE : 0 < 2 ^ (e - E)) by (apply Z.pow_pos_nonneg; lia).
  destruct (Z.le_gt_cases 0 e) as [He | He].
  - rewrite Z.shiftl_mul_pow2 by lia.
    assert (Hp : 0 < 2 ^ e) by (apply Z.pow_pos_nonneg; lia).
    assert (Hsplit : 2 ^ (e - E) = 2 ^ e * 2 ^ (- E)).
    { rewrite <- Z.pow_add_r by lia. f_equal; lia. }
    assert (Hq : 0 < 2 ^ (- E)) by (apply Z.pow_pos_nonneg; lia).
    split; [nia |]. rewrite Hsplit in Hlt. nia.
  - rewrite Z.shiftl_div_pow2 by lia.
    assert (Hp : 0 < 2 ^ (- e)) by (apply Z.pow_pos_nonneg; lia).
    assert (Hsplit : 2 ^ (- E) = 2 ^ (- e) * 2 ^ (e - E)).
    { rewrite <- Z.pow_add_r by lia. f_equal; lia. }
    split; [apply Z.div_pos; lia |].
    apply Z.div_lt_upper_bound; [lia |]. rewrite Hsplit in Hlt. nia.
Qed.

(** The product of a double in [[0, 1)] and 13, floored, is below 13: the
    largest product, [13 - 13 * 2^-53], rounds to [13 - 2^-49]. *)
Lemma floor_of_thirteen_times (m : positive) (e : Z) :
  bounded prec emax m e = true ->
  SFltb (S754_finite false m e) (ofZ 1) = true ->
  exists z, Math_floor (mul (S754_finite false m e) (ofZ 13)) = IInt z /\ 0 <= z < 13.
Proof.
  intros Hvalid Hlt.
  change (ofZ 13) with (S754_finite false 7318349394477056 (-49)).
  change (ofZ 1) with (S754_finite false 4503599627370496 (-52)) in Hlt.
  (* the mantissa has at most 53 bits, and is below [2^-e] *)
  unfold bounded, canonical_mantissa in Hvalid.
  apply andb_true_iff in Hvalid. destruct Hvalid as [Hcanon _].
  apply Z.eqb_eq in Hcanon. rewrite RoundFacts.fexp_eq in Hcanon.
  assert (Hdigits : Z.pos (digits2_pos m) <= 53) by lia.
  assert (Hm53 : Z.pos m < 2 ^ 53).
  { change (Z.pos (digits2_pos m)) with (Zdigits2 (Z.pos m)) in Hdigits.
    rewrite RoundFacts.Zdigits2_log2 in Hdigits.
    apply Z.log2_lt_pow2; lia. }
  assert (He : e <= -52 /\ Z.pos m < 2 ^ (- e)).
  { unfold SFltb, SFcompare in Hlt.
    destruct (Z.compare_spec e (-52)) as [-> | He | He]; try discriminate.
    - split; [lia |].
      destruct (Pos.compare_cont Eq m 4503599627370496) eqn:Hc; try discriminate.
      change (2 ^ (- -52)) with (Z.pos 4503599627370496). exact Hc.
    - split; [lia |].
      assert (2 ^ 53 <= 2 ^ (- e)) by (apply Z.pow_le_mono_r; lia). lia. }
  destruct He as [He Hm].
  unfold mul, SFmul. cbn [xorb].
  set (P := Z.pos (m * 7318349394477056)).
  set (E := e + -49).
  assert (HP : P = Z.pos m * 7318349394477056) by reflexivity.
  assert (Hpow : 2 ^ (- E) = 562949953421312 * 2 ^ (- e)).
  { subst E. replace (- (e + -49)) with (49 + - e) by lia.
    rewrite Z.pow_add_r by lia. reflexivity. }
  assert (Hhalf : 2 ^ (- e) = 2 * 2 ^ (- e - 1)).
  { replace (- e) with (Z.succ (- e - 1)) at 1 by lia. apply Z.pow_succ_r. lia. }
  assert (Hbig : 2 ^ 51 <= 2 ^ (- e - 1)) by (apply Z.pow_le_mono_r; lia).
  (* half a unit in the last place is at most [2^(-e-1)] *)
  assert (Hslack : RoundFacts.slack (fexp prec emax (Zdigits2 P + E) - E) <= 2 ^ (- e - 1)).
  { assert (Hd : Zdigits2 P <= 53 + - e).
    { apply RoundFacts.Zdigits2_le; [lia |]. split; [lia |].
      rewrite Z.pow_add_r by lia. change (2 ^ 53) with 9007199254740992. nia. }
    rewrite RoundFacts.fexp_eq. unfold RoundFacts.slack.
    destruct (Z.ltb_spec 0 (Z.max (Zdigits2 P + E - 53) (-1074) - E)); [| lia].
    apply Z.pow_le_mono_r; subst E; lia. }
  assert (Hstrict :
    P + RoundFacts.slack (fexp prec emax (Zdigits2 P + E) - E) < 13 * 2 ^ (- E)).
  { rewrite Hpow. clearbody P.
    destruct (Z.le_gt_cases (- e) 53) as [Hsmall | Hlarge].
    - assert (2 ^ (- e - 1) <= 2 ^ 52) by (apply Z.pow_le_mono_r; lia).
      change (2 ^ 52) with 4503599627370496 in *. lia.
    - assert (2 ^ 53 <= 2 ^ (- e - 1)) by (apply Z.pow_le_mono_r; lia).
      lia. }
  destruct (RoundFacts.binary_round_aux_upper false P E 4) as [Hzero | (m2 & e2 & Hfin & HEe & Hval)];
    try (subst E; unfold emax, prec; lia).
  - replace (4 - E) with (4 + - E) by lia. rewrite Z.pow_add_r by (subst E; lia).
    change (2 ^ 4) with 16. assert (0 < 2 ^ (- E)) by (apply Z.pow_pos_nonneg; subst E; lia).
    lia.
  - rewrite Hzero. exists 0. split; [reflexivity | lia].
  - rewrite Hfin. eexists. split; [reflexivity |].
    apply (Math_floor_below m2 e2 E 13); [exact HEe | subst E; lia | lia].
Qed.

(** X18: whatever double in [[0, 1)] [Math.random()] returns,
    [getRandomStyle] returns one of the thirteen styles, never
    [undefined]: the floored product never reaches [styles.length]. *)
Theorem getRandomStyle_always_picks_a_style (random : number) :
  valid_binary prec emax random = true ->
  SFleb (S754_zero false) random = true ->
  SFltb random (ofZ 1) = true ->
  exists style, getRandomStyle random = Some style /\ In style styles.
Proof.
  intros Hvalid Hpos Hlt.
  assert (Hindex : exists z,
    Math_floor (mul random (ofZ (Z.of_nat (List.length styles)))) = IInt z /\ 0 <= z < 13).
  { destruct random as [s | s | | s m e]; try discriminate.
    - exists 0. split; [reflexivity | lia].
    - destruct s; discriminate.
    - destruct s; [discriminate |].
      exact (floor_of_thirteen_times m e Hvalid Hlt). }
  destruct Hindex as (z & Hfloor & Hz).
  unfold getRandomStyle. rewrite Hfloor.
  destruct (Z.ltb_spec z 0); [lia |].
  destruct (nth_error styles (Z.to_nat z)) as [style |] eqn:Hnth.
  - exists style. split; [reflexivity |]. exact (nth_error_In _ _ Hnth).
  - apply nth_error_None in Hnth. simpl List.length in Hnth. lia.
Qed.

Lemma picks_a_style_witness :
  exists style,
    getRandomStyle (S754_finite false 4503599627370496 (-53)) = Some style /\ In style styles.
Proof.
  apply (getRandomStyle_always_picks_a_style (S754_finite false 4503599627370496 (-53)));
    vm_compute; reflexivity.
Defined.

End StyleFacts.
